(** * Alarms dashboard: the load / filter / aggregate / present pipeline

    A shallow embedding of [dashboard.py].  The script is one top-to-bottom
    run: it loads a spreadsheet of alarm records, filters them by severity,
    sums occurrence counts per site and per (month, site), and renders a page
    of widgets.

    Modelling choices, all taken from the script and the data model:
    - a table is the list of its rows, in row order;
    - a text cell is a [string] (a list of bytes; case folding is the ASCII
      one, which is the library's on every string that folds to one of the
      three severities the page offers); a cell of a text column that holds
      no text (a blank, a number) is [None];
    - the count column is a column of 64-bit signed integers, each written
      as an integer in [Z]; sums of counts wrap around as 64-bit sums do;
    - a timestamp column holds milliseconds since the epoch, [None] being the
      "not a time" value that a failed conversion leaves behind;
    - every table the script builds lives in a store and is named by a
      reference, so that in-place column assignment and aliasing are visible;
    - the page is the list of widgets in the order the script emits them,
      from the "Alarm Details" heading on (the title and the sidebar come
      before and are the same on every run); an exception that nothing
      catches ends the run and is shown on the page;
    - what the script leaves to its libraries and is not fixed by their
      documentation (the reading of text cells and of numbers beyond 64 bits
      as times, the order of equal totals after sorting, the floating-point
      mean) is a parameter: every result holds whatever the libraries do
      there. *)

From Stdlib Require Import ZArith List String Ascii Bool Lia QArith Permutation.
From Stdlib Require Import DecimalString DecimalZ Sorted.
From stdpp Require Import base list.
Import ListNotations.

#[local] Open Scope string_scope.
#[local] Open Scope list_scope.
#[local] Open Scope Z_scope.

Set Default Proof Using "Type*".

(** ** Data model *)

(** A spreadsheet cell of a timestamp column, before conversion. *)
Inductive cell : Type :=
| CNum (ms : Z)
| CText (s : string)
| CBlank.

(** A spreadsheet row as read from the file. *)
Record raw_row : Type := mk_raw_row {
  raw_neName : option string;
  raw_severity : option string;
  raw_numberOfOccurrences : Z;
  raw_firstTimeDetected : cell;
  raw_lastTimeDetected : cell
}.

(** The spreadsheet, with the columns of the data model: its rows, whether
    it has a [lastTimeDetected] column at all (when it has none,
    [raw_lastTimeDetected] is never read), and the type of a [severity]
    column without a single text cell: a column of numbers, of dates or of
    blanks alone is no column of objects, a column that mixes them is
    one. *)
Record sheet : Type := mk_sheet {
  has_lastTimeDetected : bool;
  severity_is_object : bool;
  sheet_rows : list raw_row
}.

(** An alarm record, after the timestamp columns have been converted. *)
Record alarm : Type := mk_alarm {
  neName : option string;
  severity : option string;
  numberOfOccurrences : Z;
  firstTimeDetected : option Z;
  lastTimeDetected : option Z
}.

(** ** 64-bit numbers *)

Definition int64_min : Z := - 2 ^ 63.
Definition int64_max : Z := 2 ^ 63 - 1.

Definition in_int64 (z : Z) : bool := (int64_min <=? z) && (z <=? int64_max).

(** The 64-bit signed integer a sum wraps around to. *)
Definition wrap64 (z : Z) : Z := (z + 2 ^ 63) mod 2 ^ 64 - 2 ^ 63.

Definition zsum (l : list Z) : Z := fold_right Z.add 0 l.

(** [Series.sum()] of a 64-bit integer column. *)
Definition sum64 (l : list Z) : Z := wrap64 (zsum l).

(** The double nearest to a 64-bit integer (ties to even), as an integer:
    what becomes of a count when its column turns into floating point. *)
Definition as_float64 (z : Z) : Z :=
  if Z.abs z <? 2 ^ 53 then z
  else
    let e := Z.log2 (Z.abs z) - 52 in
    let q := Z.abs z / 2 ^ e in
    let r := Z.abs z mod 2 ^ e in
    let q' :=
      if 2 * r <? 2 ^ e then q
      else if 2 ^ e <? 2 * r then q + 1
      else if Z.even q then q else q + 1 in
    Z.sgn z * (q' * 2 ^ e).

(** ** Loader *)

(** What the conversion of one cell comes to: a time, "not a time", or an
    overflow error that nothing catches. *)
Inductive converted : Type :=
| Timestamp (t : Z)
| NaT
| Overflows.

Section Dashboard.

(** What the conversion makes of a text cell: the number it reads from the
    text, or nothing.  The script leaves this to the library. *)
Variable text_ms : string -> option Z.

(** What the conversion makes of a number that is no 64-bit integer: the
    64-bit integer it wraps around to, or nothing when it raises an overflow
    error.  The library leaves this to its compiled code. *)
Variable wide_ms : Z -> option Z.

(** Timestamps are 64-bit nanosecond counts, so a millisecond value is in
    range when its nanosecond count fits. *)
Definition ms_in_bounds (ms : Z) : bool :=
  (-9223372036854 <=? ms) && (ms <=? 9223372036854).

Definition coerce_ms (ms : Z) : option Z :=
  if ms_in_bounds ms then Some ms else None.

(** [errors="coerce"] on a 64-bit number: out of range is "not a time". *)
Definition coerce (ms : Z) : converted :=
  match coerce_ms ms with
  | Some t => Timestamp t
  | None => NaT
  end.

Definition number_to_datetime (ms : Z) : converted :=
  if in_int64 ms then coerce ms
  else
    match wide_ms ms with
    | Some wrapped => coerce wrapped
    | None => Overflows
    end.

(** [pd.to_datetime(_, unit="ms", errors="coerce")] on one cell. *)
Definition to_datetime (c : cell) : converted :=
  match c with
  | CNum ms => number_to_datetime ms
  | CText s =>
      match text_ms s with
      | Some ms => number_to_datetime ms
      | None => NaT
      end
  | CBlank => NaT
  end.

(** The conversion of a whole column raises when the conversion of one of
    its cells does. *)
Fixpoint to_datetime_column (column : list cell) : option (list (option Z)) :=
  match column with
  | [] => Some []
  | c :: column' =>
      match to_datetime c, to_datetime_column column' with
      | Overflows, _ => None
      | _, None => None
      | Timestamp t, Some rest => Some (Some t :: rest)
      | NaT, Some rest => Some (None :: rest)
      end
  end.

Definition convert_row (r : raw_row) (first last : option Z) : alarm :=
  {| neName := raw_neName r;
     severity := raw_severity r;
     numberOfOccurrences := raw_numberOfOccurrences r;
     firstTimeDetected := first;
     lastTimeDetected := last |}.

Fixpoint convert_rows (rows : list raw_row) (firsts lasts : list (option Z))
  : list alarm :=
  match rows, firsts, lasts with
  | r :: rows', f :: firsts', l :: lasts' =>
      convert_row r f l :: convert_rows rows' firsts' lasts'
  | _, _, _ => []
  end.

Definition notna (r : alarm) : bool :=
  match firstTimeDetected r with Some _ => true | None => false end.

(** [df.dropna(subset=["firstTimeDetected"])] *)
Definition dropna (df : list alarm) : list alarm := List.filter notna df.

(** Lines 12-19 on the sheet line 13 has read: nothing is returned when a
    conversion raises. *)
Definition load_data (sh : sheet) : option (list alarm) :=
  match to_datetime_column (List.map raw_firstTimeDetected (sheet_rows sh)) with
  | None => None
  | Some firsts =>
      let lasts :=
        if has_lastTimeDetected sh
        then to_datetime_column (List.map raw_lastTimeDetected (sheet_rows sh))
        else Some (List.map (fun _ => None) (sheet_rows sh)) in
      match lasts with
      | None => None
      | Some lasts => Some (dropna (convert_rows (sheet_rows sh) firsts lasts))
      end
  end.




(** A raw row's first-detection value is valid when the conversion yields a
    timestamp. *)
Definition valid_first (r : raw_row) : bool :=
  match to_datetime (raw_firstTimeDetected r) with
  | Timestamp _ => true
  | _ => false
  end.



(** The timestamp column entry a cell is converted to. *)
Definition cell_time (c : cell) : option Z :=
  match to_datetime c with
  | Timestamp t => Some t
  | _ => None
  end.

Definition overflows (c : cell) : bool :=
  match to_datetime c with
  | Overflows => true
  | _ => false
  end.

(** A row of the sheet with its timestamp cells converted. *)
Definition converted_row (has_last : bool) (r : raw_row) : alarm :=
  convert_row r (cell_time (raw_firstTimeDetected r))
    (if has_last then cell_time (raw_lastTimeDetected r) else None).

(** Some cell of a column that the loader converts overflows. *)
Definition load_raises (sh : sheet) : bool :=
  existsb (fun r => overflows (raw_firstTimeDetected r)) (sheet_rows sh)
  || (has_lastTimeDetected sh
      && existsb (fun r => overflows (raw_lastTimeDetected r)) (sheet_rows sh)).

(** Whether the severity column can be read as strings (line 39): a column
    of objects can, and a column is one when the sheet has no rows or when a
    cell holds text. *)
Definition has_text (r : raw_row) : bool :=
  match raw_severity r with Some _ => true | None => false end.

Definition str_accessor (sh : sheet) : bool :=
  match sheet_rows sh with
  | [] => true
  | _ :: _ => existsb has_text (sheet_rows sh) || severity_is_object sh
  end.

(** ** Severity filter *)

Definition is_upper (c : ascii) : bool :=
  let n := nat_of_ascii c in (65 <=? n)%nat && (n <=? 90)%nat.

Definition is_lower (c : ascii) : bool :=
  let n := nat_of_ascii c in (97 <=? n)%nat && (n <=? 122)%nat.

Definition lower_ascii (c : ascii) : ascii :=
  if is_upper c then ascii_of_nat (nat_of_ascii c + 32) else c.

Definition upper_ascii (c : ascii) : ascii :=
  if is_lower c then ascii_of_nat (nat_of_ascii c - 32) else c.

(** [str.lower()] *)
Fixpoint lower (s : string) : string :=
  match s with
  | EmptyString => EmptyString
  | String c s' => String (lower_ascii c) (lower s')
  end.

(** [x in selection] on strings. *)
Definition isin (x : string) (selection : list string) : bool :=
  existsb (String.eqb x) selection.

(** Lines 38-39: a non-empty selection keeps the rows whose lower-cased
    severity is selected; an empty one leaves the table as it is.  A cell
    that holds no text lower-cases to a missing value, which is in no
    selection. *)
Definition matches (severity_filter : list string) (r : alarm) : bool :=
  match severity r with
  | Some s => isin (lower s) severity_filter
  | None => false
  end.

Definition apply_filter (severity_filter : list string) (df : list alarm)
  : list alarm :=
  match severity_filter with
  | [] => df
  | _ :: _ => List.filter (matches severity_filter) df
  end.

(** [str.title()]: the first letter of every run of letters in upper case, the
    others in lower case. *)
Fixpoint title_from (in_word : bool) (s : string) : string :=
  match s with
  | EmptyString => EmptyString
  | String c s' =>
      if is_upper c || is_lower c
      then String (if in_word then lower_ascii c else upper_ascii c)
                  (title_from true s')
      else String c (title_from false s')
  end.

Definition title (s : string) : string := title_from false s.

(** Lines 42-45. *)
Definition severity_label (severity_filter : list string) : string :=
  match severity_filter with
  | [] => "All Severities"
  | _ :: _ => title (String.concat " / " severity_filter)
  end.

(** ** Group-by with sum *)

(** The order on group keys: groups come out sorted by key. *)
Class KeyOrder (K : Type) : Type := kcmp : K -> K -> comparison.

#[global] Instance string_order : KeyOrder string := String.compare.

(** Keys of the time aggregation: a month and a site, compared in that
    order. *)
#[global] Instance month_site_order : KeyOrder (Z * string) :=
  fun a b =>
    match Z.compare (fst a) (fst b) with
    | Eq => String.compare (snd a) (snd b)
    | c => c
    end.

(** What the grouping relies on: the comparison is a strict total order. *)
Class KeyOrderLaws (K : Type) `{KeyOrder K} : Prop := {
  kcmp_eq : forall a b : K, kcmp a b = Eq -> a = b;
  kcmp_antisym : forall a b : K, kcmp a b = CompOpp (kcmp b a);
  kcmp_trans : forall a b c : K, kcmp a b = Lt -> kcmp b c = Lt -> kcmp a c = Lt
}.

Section GroupBy.

Context {K : Type} `{KeyOrder K}.

(** Add one value to the group of its key, opening the group at its sorted
    place when the key is new.  Values are 64-bit integers and are added as
    such. *)
Fixpoint group_add (k : K) (v : Z) (groups : list (K * Z)) : list (K * Z) :=
  match groups with
  | [] => [(k, wrap64 v)]
  | (k', v') :: rest =>
      match kcmp k k' with
      | Lt => (k, wrap64 v) :: groups
      | Eq => (k', wrap64 (v' + v)) :: rest
      | Gt => (k', v') :: group_add k v rest
      end
  end.

(** [groupby(key)[value].sum().reset_index()]: one row per key, keys in
    ascending order; rows whose key is missing belong to no group. *)
Definition add_row (groups : list (K * Z)) (kv : option K * Z) : list (K * Z) :=
  match fst kv with
  | Some k => group_add k (snd kv) groups
  | None => groups
  end.

Definition groupby_sum (rows : list (option K * Z)) : list (K * Z) :=
  fold_left add_row rows [].

(** The rows that have a key, with their key. *)
Fixpoint keyed (rows : list (option K * Z)) : list (K * Z) :=
  match rows with
  | [] => []
  | (Some k, v) :: rows' => (k, v) :: keyed rows'
  | (None, _) :: rows' => keyed rows'
  end.

Definition key_eqb (a b : K) : bool :=
  match kcmp a b with Eq => true | _ => false end.

(** The value stored for a key, if the key has a row. *)
Fixpoint lookup_key (k : K) (groups : list (K * Z)) : option Z :=
  match groups with
  | [] => None
  | (k', v) :: rest => if key_eqb k k' then Some v else lookup_key k rest
  end.

(** Keys strictly ascending: the shape of every group-by result. *)
Definition ascending (groups : list (K * Z)) : Prop :=
  StronglySorted (fun a b => kcmp (fst a) (fst b) = Lt) groups.

End GroupBy.

(** The sum of the value column of a table, a 64-bit sum. *)
Definition sum_values {K : Type} (groups : list (K * Z)) : Z :=
  sum64 (List.map snd groups).

(** [sort_values(by=value, ascending=False)].  The library's sort is not
    stable: it promises no order among rows with equal values.  [rank] is
    the order it happens to give them: of two rows with equal values the one
    of lower rank comes first, and rows of equal rank stay in the order they
    had.  Every descending arrangement of a table with distinct keys comes
    from some rank. *)
Definition goes_before {K : Type} (rank : K -> Z) (x y : K * Z) : bool :=
  (snd y <? snd x) || ((snd y =? snd x) && (rank (fst x) <=? rank (fst y))).

Fixpoint insert_desc {K : Type} (rank : K -> Z) (x : K * Z) (l : list (K * Z))
  : list (K * Z) :=
  match l with
  | [] => [x]
  | y :: l' => if goes_before rank x y then x :: l else y :: insert_desc rank x l'
  end.

Definition sort_values_desc {K : Type} (rank : K -> Z) (l : list (K * Z))
  : list (K * Z) :=
  fold_right (insert_desc rank) [] l.

(** The rank that leaves equal values in the order they had. *)
Definition stable_rank {K : Type} (groups : list (K * Z)) (k : K) : Z := 0.

(** The order the library's sort gives to rows of equal totals, for each
    table it sorts. *)
Variable tie_rank : list (string * Z) -> string -> Z.

(** [round(_.mean(), 2)] of a non-empty 64-bit integer column: the double
    the library computes, as a rational. *)
Variable mean2 : list Z -> Q.

(** ** Aggregator (lines 48-66) *)

Definition has_site (r : alarm) : bool :=
  match neName r with Some _ => true | None => false end.

(** The rows of one site. *)
Definition of_site (s : string) (r : alarm) : bool :=
  match neName r with
  | Some s' => String.eqb s s'
  | None => false
  end.

(** The sum of the occurrence counts of a table's rows. *)
Definition total_occurrences (df : list alarm) : Z :=
  zsum (List.map numberOfOccurrences df).

Definition site_key (r : alarm) : option string * Z :=
  (neName r, numberOfOccurrences r).

Definition site_criticals (df : list alarm) : list (string * Z) :=
  let groups := groupby_sum (List.map site_key df) in
  sort_values_desc (tie_rank groups) groups.

(** [Series.max()]; a series without values has no maximum. *)
Definition series_max (l : list Z) : option Z :=
  match l with
  | [] => None
  | x :: l' => Some (fold_left Z.max l' x)
  end.

Definition max_crit (totals : list (string * Z)) : option Z :=
  series_max (List.map snd totals).

Definition is_max (m : option Z) (row : string * Z) : bool :=
  match m with
  | Some v => snd row =? v
  | None => false
  end.

Definition top_sites (totals : list (string * Z)) : list string :=
  List.map fst (List.filter (is_max (max_crit totals)) totals).

(** The marker appended to a top site's name: a space and the four bytes of
    the siren sign. *)
Definition siren : string :=
  String (ascii_of_nat 32)
    (String (ascii_of_nat 240)
       (String (ascii_of_nat 159)
          (String (ascii_of_nat 154)
             (String (ascii_of_nat 168) EmptyString)))).

Definition mark (tops : list string) (site : string) : string :=
  if isin site tops then (site ++ siren)%string else site.

(** The function applied to the site column of the display copy: a missing
    name is in no list and stays missing. *)
Definition mark_name (tops : list string) (x : option string) : option string :=
  match x with
  | Some site => Some (mark tops site)
  | None => None
  end.

Definition set_neName (f : option string -> option string) (r : alarm) : alarm :=
  {| neName := f (neName r);
     severity := severity r;
     numberOfOccurrences := numberOfOccurrences r;
     firstTimeDetected := firstTimeDetected r;
     lastTimeDetected := lastTimeDetected r |}.

(** [round(_.mean(), 2)]: the mean of no values is not a number. *)
Definition rounded_mean (l : list Z) : option Q :=
  match l with
  | [] => None
  | _ :: _ => Some (mean2 l)
  end.

(** ** Time aggregator (lines 97-113) *)

(** The calendar month of a timestamp, as the number of months since January
    1970: the proleptic Gregorian calendar, days counted from the epoch. *)
Definition ms_per_day : Z := 86400000.

Definition civil_year_month (days : Z) : Z * Z :=
  let z := days + 719468 in
  let era := z / 146097 in
  let doe := z - era * 146097 in
  let yoe := (doe - doe / 1460 + doe / 36524 - doe / 146096) / 365 in
  let doy := doe - (365 * yoe + yoe / 4 - yoe / 100) in
  let mp := (5 * doy + 2) / 153 in
  let m := if mp <? 10 then mp + 3 else mp - 9 in
  let y := yoe + era * 400 in
  (if m <=? 2 then y + 1 else y, m).

Definition month_bin (ms : Z) : Z :=
  let '(y, m) := civil_year_month (ms / ms_per_day) in
  (y - 1970) * 12 + (m - 1).

Definition bin_year (b : Z) : Z := 1970 + b / 12.
Definition bin_month (b : Z) : Z := b mod 12 + 1.

Definition str_Z (z : Z) : string :=
  DecimalString.NilEmpty.string_of_int (Z.to_int z).

Definition digit (d : Z) : ascii := ascii_of_nat (48 + Z.to_nat d).

Definition two_digits (n : Z) : string :=
  String (digit (n / 10)) (String (digit (n mod 10)) EmptyString).

(** [strftime("%Y-%m")] of a month. *)
Definition strftime_Ym (b : Z) : string :=
  (str_Z (bin_year b) ++ "-" ++ two_digits (bin_month b))%string.

(** A row of [df_time]: the month bin, the site, the summed count, and the
    [month] label column once line 103 has added it. *)
Record time_row : Type := mk_time_row {
  time_bin : Z;
  time_neName : string;
  time_numberOfOccurrences : Z;
  month : option string
}.

Definition time_key (r : alarm) : option (Z * string) * Z :=
  (match firstTimeDetected r, neName r with
   | Some t, Some site => Some (month_bin t, site)
   | _, _ => None
   end,
   numberOfOccurrences r).

(** The monthly grouping of line 98 sets up month-end bin edges from one
    month before the earliest day to one month after the latest day it
    groups, and these edges must be timestamps themselves: it accepts times
    from 1 October 1677 up to, and not including, 31 March 2262. *)
Definition grouper_min_ms : Z := -9222508800000.
Definition grouper_end_ms : Z := 9222336000000.

Definition grouper_accepts (t : Z) : bool :=
  (grouper_min_ms <=? t) && (t <? grouper_end_ms).

(** The times of the table, site name or not, are all times it accepts. *)
Definition bins_in_bounds (df : list alarm) : bool :=
  forallb
    (fun r =>
       match firstTimeDetected r with
       | Some t => grouper_accepts t
       | None => true
       end)
    df.

Definition grouped_by_month (df : list alarm) : list time_row :=
  List.map
    (fun g => {| time_bin := fst (fst g);
                 time_neName := snd (fst g);
                 time_numberOfOccurrences := snd g;
                 month := None |})
    (groupby_sum (List.map time_key df)).

(** Lines 97-101: nothing is returned when the grouping raises. *)
Definition df_time (df : list alarm) : option (list time_row) :=
  if bins_in_bounds df then Some (grouped_by_month df) else None.

(** Line 103. *)
Definition with_month (r : time_row) : time_row :=
  {| time_bin := time_bin r;
     time_neName := time_neName r;
     time_numberOfOccurrences := time_numberOfOccurrences r;
     month := Some (strftime_Ym (time_bin r)) |}.

(** The matrix: row labels, column labels, and one list of cells per row
    label; a cell without a value is [None].  A cell's value is the number
    it holds, be it stored as a 64-bit integer or as a double. *)
Record pivot : Type := mk_pivot {
  pivot_index : list string;
  pivot_columns : list string;
  pivot_values : list (list (option Z))
}.

(** The sorted distinct labels of an axis. *)
Fixpoint insert_label (s : string) (l : list string) : list string :=
  match l with
  | [] => [s]
  | x :: l' =>
      match String.compare s x with
      | Lt => s :: l
      | Eq => l
      | Gt => x :: insert_label s l'
      end
  end.

Definition axis_labels (l : list string) : list string :=
  fold_right insert_label [] l.

(** The (month, site, value) triples [pivot] reads; reading the [month]
    column fails while the column does not exist. *)
Fixpoint month_site_values (rows : list time_row)
  : option (list (string * string * Z)) :=
  match rows with
  | [] => Some []
  | r :: rows' =>
      match month r, month_site_values rows' with
      | Some m, Some rest =>
          Some ((m, time_neName r, time_numberOfOccurrences r) :: rest)
      | _, _ => None
      end
  end.

Definition same_entry (m s : string) (e : string * string * Z) : bool :=
  String.eqb m (fst (fst e)) && String.eqb s (snd (fst e)).

Fixpoint has_duplicates (entries : list (string * string * Z)) : bool :=
  match entries with
  | [] => false
  | e :: rest =>
      existsb (same_entry (fst (fst e)) (snd (fst e))) rest || has_duplicates rest
  end.

Definition entry_value (m s : string) (entries : list (string * string * Z))
  : option Z :=
  match List.find (same_entry m s) entries with
  | Some e => Some (snd e)
  | None => None
  end.

Definition is_missing (c : option Z) : bool :=
  match c with Some _ => false | None => true end.

Definition has_gaps (values : list (list (option Z))) : bool :=
  existsb (existsb is_missing) values.

(** A cell as it is stored: in a matrix of doubles a 64-bit integer becomes
    the double nearest to it. *)
Definition as_stored (float : bool) (c : option Z) : option Z :=
  if float then option_map as_float64 c else c.

(** A matrix of 64-bit integers stays one when every cell has a value; when
    a cell is missing the whole matrix turns into floating point. *)
Definition promote (values : list (list (option Z))) : list (list (option Z)) :=
  List.map (List.map (as_stored (has_gaps values))) values.

Definition index_of (entries : list (string * string * Z)) : list string :=
  axis_labels (List.map (fun e => fst (fst e)) entries).

Definition columns_of (entries : list (string * string * Z)) : list string :=
  axis_labels (List.map (fun e => snd (fst e)) entries).

(** The cells before they are stored: one row per month label, one cell per
    site label. *)
Definition raw_values (entries : list (string * string * Z))
  : list (list (option Z)) :=
  List.map
    (fun m => List.map (fun s => entry_value m s entries) (columns_of entries))
    (index_of entries).

(** [pivot(index="month", columns="neName", values=...)]: refuses a table in
    which one (month, site) pair occurs twice. *)
Definition pivot_entries (entries : list (string * string * Z)) : option pivot :=
  if has_duplicates entries then None
  else
    Some {| pivot_index := index_of entries;
            pivot_columns := columns_of entries;
            pivot_values := promote (raw_values entries) |}.

Definition fill0 (c : option Z) : option Z :=
  match c with
  | Some v => Some v
  | None => Some 0
  end.

(** [.fillna(0)] *)
Definition fillna (p : pivot) : pivot :=
  {| pivot_index := pivot_index p;
     pivot_columns := pivot_columns p;
     pivot_values := List.map (List.map fill0) (pivot_values p) |}.

(** Line 112: the dictionary sending each top site to its marked name. *)
Definition rename_map (tops : list string) : list (string * string) :=
  List.map (fun site => (site, (site ++ siren)%string)) tops.

(** A label under a renaming dictionary: labels without an entry stay. *)
Definition rename_label (renaming : list (string * string)) (label : string)
  : string :=
  match List.find (fun kv => String.eqb label (fst kv)) renaming with
  | Some kv => snd kv
  | None => label
  end.

(** [rename(columns=renaming)] *)
Definition rename_columns (renaming : list (string * string)) (p : pivot) : pivot :=
  {| pivot_index := pivot_index p;
     pivot_columns := List.map (rename_label renaming) (pivot_columns p);
     pivot_values := pivot_values p |}.

(** Line 106 on the rows of [df_time]. *)
Definition pivot_table (rows : list time_row) : option pivot :=
  match month_site_values rows with
  | Some entries =>
      match pivot_entries entries with
      | Some p => Some (fillna p)
      | None => None
      end
  | None => None
  end.

(** Lines 97-106 on a filtered table: the matrix, or nothing when line 98
    raises. *)
Definition matrix (df : list alarm) : option pivot :=
  match df_time df with
  | Some rows => pivot_table (List.map with_month rows)
  | None => None
  end.

(** The cell of a matrix at a row position and a column position. *)
Definition cell_at (p : pivot) (i j : nat) : option (option Z) :=
  match nth_error (pivot_values p) i with
  | Some row => nth_error row j
  | None => None
  end.

(** ** The page and the store *)

Inductive metric_value : Type :=
| MInt (n : Z)
| MFloat (x : option Q).

(** The exceptions a run can end with: the file is missing or cannot be
    read as a sheet (line 13), a conversion overflows (lines 15 and 17), the
    severity column has no string methods (line 39), the month bins of the
    grouping leave the range of timestamps (line 98). *)
Inductive error : Type :=
| FileError
| OverflowError
| AttributeError
| OutOfBoundsDatetime.

(** What the script puts on the page.  The two call-outs keep the site, its
    total and the severity label apart instead of one formatted line; a chart
    is the table and the caption handed to the charting library, whose
    drawing is outside the model.  An exception that nothing catches ends
    the run, and the page shows it below what was put there before. *)
Inductive widget : Type :=
| Subheader (text : string)
| Dataframe (rows : list alarm)
| Warning (text : string)
| Metric (label : string) (value : metric_value)
| Success (site : string) (total : Z) (label : string)
| Info (site : string) (total : Z) (label : string)
| BarChart (totals : list (string * Z)) (caption : string)
| Heatmap (matrix : pivot) (caption : string)
| Uncaught (e : error).

(** A table object of the run. *)
Inductive frame : Type :=
| Alarms (rows : list alarm)
| SiteTotals (rows : list (string * Z))
| TimeTotals (rows : list time_row)
| PivotTable (p : pivot).

(** References are positions in the store. *)
Definition ref : Type := nat.

Record world : Type := mk_world {
  heap : list frame;
  page : list widget
}.

(** Computations of the script: they read and write the world and may
    raise. *)
Definition M (A : Type) : Type := world -> option (A * world).

#[global] Instance M_ret : MRet M := fun A x w => Some (x, w).

#[global] Instance M_bind : MBind M := fun A B f c w =>
  match c w with
  | Some (x, w') => f x w'
  | None => None
  end.

Definition raise {A : Type} : M A := fun _ => None.

(** A new table object; nothing else refers to it yet. *)
Definition alloc (f : frame) : M ref := fun w =>
  Some (length (heap w), {| heap := heap w ++ [f]; page := page w |}).

Definition read (r : ref) : M frame := fun w =>
  match heap w !! r with
  | Some f => Some (f, w)
  | None => None
  end.

(** Overwrite the object a reference names: every alias sees the change. *)
Definition write (r : ref) (f : frame) : M unit := fun w =>
  match heap w !! r with
  | Some _ => Some (tt, {| heap := <[r := f]> (heap w); page := page w |})
  | None => None
  end.

Definition emit (x : widget) : M unit := fun w =>
  Some (tt, {| heap := heap w; page := page w ++ [x] |}).

Definition read_alarms (r : ref) : M (list alarm) :=
  f ← read r;
  match f with Alarms rows => mret rows | _ => raise end.

Definition read_totals (r : ref) : M (list (string * Z)) :=
  f ← read r;
  match f with SiteTotals rows => mret rows | _ => raise end.

Definition read_time (r : ref) : M (list time_row) :=
  f ← read r;
  match f with TimeTotals rows => mret rows | _ => raise end.

Definition read_pivot (r : ref) : M pivot :=
  f ← read r;
  match f with PivotTable p => mret p | _ => raise end.

(** [df[col] = df[col].apply(f)] on the site column: assignment in place. *)
Definition assign_neName (r : ref) (f : option string -> option string) : M unit :=
  rows ← read_alarms r;
  write r (Alarms (List.map (set_neName f) rows)).

(** [df_time["month"] = ...]: assignment in place. *)
Definition assign_month (r : ref) : M unit :=
  rows ← read_time r;
  write r (TimeTotals (List.map with_month rows)).

Definition lift_option {A : Type} (o : option A) : M A :=
  match o with
  | Some x => mret x
  | None => raise
  end.

(** ** The script, from the filter on (lines 37-124)

    [df0] names the loaded table, whose severity column holds text;
    [severity_filter] is the sidebar's selection.  The page set-up, the
    sidebar and the refresh timer emit no pipeline output and are left
    out. *)

Definition filter_step (df0 : ref) (severity_filter : list string) : M ref :=
  match severity_filter with
  | [] => mret df0
  | _ :: _ =>
      rows ← read_alarms df0;
      alloc (Alarms (List.filter (matches severity_filter) rows))
  end.

Definition details (df sc : ref) : M unit :=
  totals ← read_totals sc;
  match totals with
  | _ :: _ =>
      rows ← read_alarms df;
      df_display ← alloc (Alarms rows);
      assign_neName df_display (mark_name (top_sites totals));;
      shown ← read_alarms df_display;
      emit (Dataframe shown)
  | [] => emit (Warning "No alarms to display.")
  end.

Definition summary_cards (sc : ref) (label : string) : M unit :=
  totals ← read_totals sc;
  emit (Metric ("Total " ++ label)%string (MInt (sum_values totals)));;
  emit (Metric ("Average " ++ label ++ " per Site")%string
          (MFloat (rounded_mean (List.map snd totals))));;
  emit (Metric "Number of Sites" (MInt (Z.of_nat (length totals)))).

Definition top_callouts (sc : ref) (label : string) : M unit :=
  totals ← read_totals sc;
  match totals with
  | top_site :: others =>
      emit (Subheader ("Most " ++ label ++ " Site")%string);;
      emit (Success (fst top_site) (snd top_site) label);;
      match others with
      | next_site :: _ =>
          emit (Subheader ("Next Predicted " ++ label ++ " Site")%string);;
          emit (Info (fst next_site) (snd next_site) label)
      | [] => mret tt
      end
  | [] => mret tt
  end.

(** Lines 103-124, on the table of lines 97-101. *)
Definition heatmap_of (grouped : list time_row) (sc : ref) (label : string)
  : M unit :=
  dft ← alloc (TimeTotals grouped);
  assign_month dft;;
  trows ← read_time dft;
  p ← lift_option (pivot_table trows);
  pt ← alloc (PivotTable p);
  totals ← read_totals sc;
  pt' ← match totals with
        | _ :: _ =>
            p0 ← read_pivot pt;
            alloc (PivotTable (rename_columns (rename_map (top_sites totals)) p0))
        | [] => mret pt
        end;
  shown ← read_pivot pt';
  emit (Heatmap shown
          ("Heatmap of " ++ label ++ " by Site (horizontal) and Month (vertical)")%string).

(** Lines 97-124, the end of the script: when the grouping of line 98
    raises, the run ends there with the exception on the page. *)
Definition heatmap (df sc : ref) (label : string) : M unit :=
  rows ← read_alarms df;
  match df_time rows with
  | Some grouped => heatmap_of grouped sc label
  | None => emit (Uncaught OutOfBoundsDatetime)
  end.

Definition pipeline (df0 : ref) (severity_filter : list string) : M unit :=
  df ← filter_step df0 severity_filter;
  let label := severity_label severity_filter in
  rows ← read_alarms df;
  sc ← alloc (SiteTotals (site_criticals rows));
  emit (Subheader "Alarm Details");;
  details df sc;;
  summary_cards sc label;;
  top_callouts sc label;;
  emit (Subheader "Charts");;
  totals ← read_totals sc;
  emit (BarChart totals (label ++ " by Site")%string);;
  heatmap df sc label.

(** One run on a freshly loaded table: the world holds that table alone and
    an empty page. *)
Definition run (df : list alarm) (severity_filter : list string) : option world :=
  match pipeline 0%nat severity_filter {| heap := [Alarms df]; page := [] |} with
  | Some (_, w) => Some w
  | None => None
  end.

Definition is_metric (x : widget) : bool :=
  match x with Metric _ _ => true | _ => false end.

Definition is_table (x : widget) : bool :=
  match x with Dataframe _ => true | _ => false end.


Definition is_notice (x : widget) : bool :=
  match x with
  | Warning text => String.eqb text "No alarms to display."
  | _ => false
  end.

(** ** The sidebar and the cached load (lines 11 and 21-32) *)

(** The options of the severity multi-select (line 27). *)
Definition severity_options : list string := ["critical"; "major"; "minor"].

(** What the multi-select can return: offered options only. *)
Definition offered (selection : list string) : bool :=
  forallb (fun x => isin x severity_options) selection.

(** What line 22 yields: the loaded rows, and whether their severity
    column can be read as strings. *)
Record loaded : Type := mk_loaded {
  loaded_rows : list alarm;
  loaded_str : bool
}.

(** [load_data()] on the file as it is: [None] is no file, or one that
    cannot be read as a sheet. *)
Definition load (file : option sheet) : error + loaded :=
  match file with
  | None => inl FileError
  | Some sh =>
      match load_data sh with
      | None => inl OverflowError
      | Some rows => inr {| loaded_rows := rows; loaded_str := str_accessor sh |}
      end
  end.

(** [@st.cache_data] on [load_data], which takes no argument: the first call
    reads the file and keeps the result; later calls return what was kept,
    whatever the file holds by then.  A call that raises keeps nothing. *)
Definition cached_load_data (file : option sheet) (cache : option loaded)
  : (error + loaded) * option loaded :=
  match cache with
  | Some t => (inr t, cache)
  | None =>
      match load file with
      | inl e => (inl e, None)
      | inr t => (inr t, Some t)
      end
  end.

(** The page of a run that an exception ends before the pipeline has put
    anything on it. *)
Definition failed (e : error) : world := {| heap := []; page := [Uncaught e] |}.

(** Lines 37-124 on the loaded table: line 39 raises when the selection is
    not empty and the severity column has no string methods. *)
Definition script (t : loaded) (severity_filter : list string) : option world :=
  match severity_filter with
  | [] => run (loaded_rows t) []
  | _ :: _ =>
      if loaded_str t then run (loaded_rows t) severity_filter
      else Some (failed AttributeError)
  end.

(** One execution of the script: the load of line 22, then the "Reload Data"
    button of lines 31-32, which empties the cache when it was clicked, then
    the pipeline on the table loaded at line 22.  It returns the world the
    run ends with, and the cache it leaves for the next execution.  When
    the load raises, the run ends at line 22. *)
Definition app (file : option sheet) (reload_clicked : bool)
           (severity_filter : list string) (cache : option loaded)
  : option world * option loaded :=
  match cached_load_data file cache with
  | (inl e, cache1) => (Some (failed e), cache1)
  | (inr t, cache1) =>
      let cache2 := if reload_clicked then None else cache1 in
      (script t severity_filter, cache2)
  end.

(** What triggers an execution: the file as it is at that moment, whether the
    button was clicked, and the selection. *)
Record trigger : Type := mk_trigger {
  file_now : option sheet;
  reload_clicked_now : bool;
  selection_now : list string
}.

(** A session: the script is executed once per trigger, each execution
    starting from the cache the previous one left. *)
Fixpoint session (triggers : list trigger) (cache : option loaded)
  : list (option world) :=
  match triggers with
  | [] => []
  | t :: rest =>
      let (w, cache') :=
        app (file_now t) (reload_clicked_now t) (selection_now t) cache in
      w :: session rest cache'
  end.

Definition no_click (t : trigger) : bool := negb (reload_clicked_now t).

(** ** Measures used to state the properties *)

Definition has_time (r : alarm) : bool :=
  match firstTimeDetected r with Some _ => true | None => false end.

(** The rows of one month and one site. *)
Definition in_cell (b : Z) (s : string) (r : alarm) : bool :=
  match firstTimeDetected r, neName r with
  | Some t, Some s' => (month_bin t =? b) && String.eqb s s'
  | _, _ => false
  end.

Definition cell_value (c : option Z) : Z :=
  match c with Some v => v | None => 0 end.




(** The month bin of a day number. *)
Definition day_bin (days : Z) : Z :=
  let '(y, m) := civil_year_month days in
  (y - 1970) * 12 + (m - 1).

(** A test holds on [fuel] consecutive integers from [d] on. *)
Fixpoint all_from (fuel : nat) (d : Z) (p : Z -> bool) : bool :=
  match fuel with
  | O => true
  | S fuel' => p d && all_from fuel' (d + 1) p
  end.

Definition four_digits (y : Z) : string :=
  String (digit (y / 1000))
    (String (digit (y / 100 mod 10))
       (String (digit (y / 10 mod 10))
          (String (digit (y mod 10)) EmptyString))).

(** The (month label, site, total) triples of a table: what the matrix is
    made of. *)
Definition month_site_totals (df : list alarm) : list (string * string * Z) :=
  List.map (fun g => (strftime_Ym (fst (fst g)), snd (fst g), snd g))
    (groupby_sum (List.map time_key df)).

(** The matrix of a table is one of doubles: some (month, site) pair of its
    axes has no row. *)
Definition matrix_is_float (df : list alarm) : bool :=
  has_gaps (raw_values (month_site_totals df)).

(** The sum of all the cells of a matrix. *)
Definition matrix_sum (p : pivot) : Z :=
  zsum (List.map (fun row => zsum (List.map cell_value row)) (pivot_values p)).

Definition is_success (x : widget) : bool :=
  match x with Success _ _ _ => true | _ => false end.

Definition is_info (x : widget) : bool :=
  match x with Info _ _ _ => true | _ => false end.

(** A site whose total no total of the table exceeds. *)
Definition has_greatest_total (totals : list (string * Z)) (s : string) : Prop :=
  exists t, In (s, t) totals /\ forall s' t', In (s', t') totals -> t' <= t.

(** Labels strictly ascending. *)
Definition labels_ascending (l : list string) : Prop :=
  StronglySorted (fun a b => String.compare a b = Lt) l.

(** Totals in descending order. *)
Definition totals_descending (l : list (string * Z)) : Prop :=
  StronglySorted (fun a b => snd b <= snd a) l.

(** ** Example tables *)

(** Site A and site B once each at severity critical with count 5 (January
    and February 2024), and site A once at severity minor with count 100. *)
Definition scenario : list alarm :=
  [ {| neName := Some "A"; severity := Some "critical"; numberOfOccurrences := 5;
       firstTimeDetected := Some 1704412800000; lastTimeDetected := None |};
    {| neName := Some "B"; severity := Some "critical"; numberOfOccurrences := 5;
       firstTimeDetected := Some 1707523200000; lastTimeDetected := None |};
    {| neName := Some "A"; severity := Some "minor"; numberOfOccurrences := 100;
       firstTimeDetected := Some 1704499200000; lastTimeDetected := None |} ].




(** One row of site A first detected on 22 September 1677, and the same row
    without a site name. *)
Definition early_table : list alarm :=
  [ {| neName := Some "A"; severity := Some "critical"; numberOfOccurrences := 1;
       firstTimeDetected := Some (-9223286400000); lastTimeDetected := None |} ].

Definition early_nameless_table : list alarm :=
  [ {| neName := None; severity := Some "critical"; numberOfOccurrences := 1;
       firstTimeDetected := Some (-9223286400000); lastTimeDetected := None |} ].

(** Two rows of site A whose counts add up to more than 64 bits hold. *)
Definition large_counts_table : list alarm :=
  [ {| neName := Some "A"; severity := Some "critical";
       numberOfOccurrences := 9223372036854775807;
       firstTimeDetected := Some 1704412800000; lastTimeDetected := None |};
    {| neName := Some "A"; severity := Some "critical";
       numberOfOccurrences := 8;
       firstTimeDetected := Some 1704412800000; lastTimeDetected := None |} ].

(** A sheet of two rows: the first-detection cell of the first holds a
    time in January 2024, that of the second the number 10^20. *)
Definition overflowing_sheet : sheet :=
  {| has_lastTimeDetected := false;
     severity_is_object := true;
     sheet_rows :=
       [ {| raw_neName := Some "A"; raw_severity := Some "critical";
            raw_numberOfOccurrences := 1;
            raw_firstTimeDetected := CNum 1704412800000;
            raw_lastTimeDetected := CBlank |};
         {| raw_neName := Some "B"; raw_severity := Some "critical";
            raw_numberOfOccurrences := 1;
            raw_firstTimeDetected := CNum (10 ^ 20);
            raw_lastTimeDetected := CBlank |} ] |}.


(** The scenario as a sheet. *)
Definition scenario_sheet : sheet :=
  {| has_lastTimeDetected := false;
     severity_is_object := true;
     sheet_rows :=
       [ {| raw_neName := Some "A"; raw_severity := Some "critical";
            raw_numberOfOccurrences := 5;
            raw_firstTimeDetected := CNum 1704412800000;
            raw_lastTimeDetected := CBlank |};
         {| raw_neName := Some "B"; raw_severity := Some "critical";
            raw_numberOfOccurrences := 5;
            raw_firstTimeDetected := CNum 1707523200000;
            raw_lastTimeDetected := CBlank |};
         {| raw_neName := Some "A"; raw_severity := Some "minor";
            raw_numberOfOccurrences := 100;
            raw_firstTimeDetected := CNum 1704499200000;
            raw_lastTimeDetected := CBlank |} ] |}.

(** Three executions: a first visit while the file holds the scenario, with
    ["critical"] selected; a later one when the file is gone, with nothing
    selected; and one with a click on "Reload Data" while the file holds the
    sheet with the overflowing cell. *)
Definition first_visit : trigger :=
  {| file_now := Some scenario_sheet;
     reload_clicked_now := false;
     selection_now := ["critical"] |}.

Definition later_visit : trigger :=
  {| file_now := None;
     reload_clicked_now := false;
     selection_now := [] |}.

Definition reload_click : trigger :=
  {| file_now := Some overflowing_sheet;
     reload_clicked_now := true;
     selection_now := [] |}.

(** ** The parameters of the examples

    The examples are evaluated with a conversion that reads no text cell as
    a number, wraps numbers of less than 65 bits around and raises on larger
    ones, with a sort that leaves equal totals in the order they had, and
    with the mean in exact arithmetic, rounded half to even. *)

Definition no_text_ms (s : string) : option Z := None.

Definition wide_ms_sample (z : Z) : option Z :=
  if Z.abs z <? 2 ^ 64 then Some (wrap64 z) else None.

Definition round_half_even (q : Q) : Z :=
  let n := Qnum q in
  let d := Zpos (Qden q) in
  let fl := n / d in
  let r := 2 * (n - fl * d) in
  if r <? d then fl
  else if d <? r then fl + 1
  else if Z.even fl then fl else fl + 1.

Definition exact_mean2 (l : list Z) : Q :=
  Qred (Qmake (round_half_even
                 (Qmult (Qmake (zsum l) (Pos.of_nat (length l))) (inject_Z 100)))
          100).

(** * Properties *)

(** Propositional steps, in a context without the parameters of the
    script. *)
Ltac no_params :=
  try clear mean2; try clear tie_rank; try clear wide_ms; try clear text_ms.

Ltac logic := no_params; intuition auto.

Ltac taut := no_params; tauto.

(** ** 64-bit sums *)

Lemma wrap64_range (z : Z) : int64_min <= wrap64 z <= int64_max.
Proof.
  unfold wrap64, int64_min, int64_max.
  pose proof (Z.mod_pos_bound (z + 2 ^ 63) (2 ^ 64) ltac:(lia)). lia.
Qed.

Lemma wrap64_small (z : Z) : int64_min <= z <= int64_max -> wrap64 z = z.
Proof.
  unfold wrap64, int64_min, int64_max. intros Hz.
  rewrite Z.mod_small by lia. lia.
Qed.

Lemma wrap64_add_l (a b : Z) : wrap64 (wrap64 a + b) = wrap64 (a + b).
Proof.
  unfold wrap64.
  replace ((a + 2 ^ 63) mod 2 ^ 64 - 2 ^ 63 + b + 2 ^ 63)
    with ((a + 2 ^ 63) mod 2 ^ 64 + b) by lia.
  rewrite Zplus_mod_idemp_l. f_equal. f_equal. lia.
Qed.

Lemma wrap64_add_r (a b : Z) : wrap64 (a + wrap64 b) = wrap64 (a + b).
Proof. rewrite (Z.add_comm a), wrap64_add_l, (Z.add_comm b). reflexivity. Qed.

Lemma wrap64_idem (z : Z) : wrap64 (wrap64 z) = wrap64 z.
Proof. apply wrap64_small, wrap64_range. Qed.

Lemma zsum_app (l l' : list Z) : zsum (l ++ l') = zsum l + zsum l'.
Proof. unfold zsum. induction l as [|x l IH]; simpl; lia. Qed.

Lemma zsum_perm (l l' : list Z) : Permutation l l' -> zsum l = zsum l'.
Proof. unfold zsum. induction 1; simpl; lia. Qed.

(** ** Loader *)

Lemma to_datetime_column_spec (column : list cell) :
  to_datetime_column column
  = if existsb overflows column then None
    else Some (List.map cell_time column).
Proof.
  induction column as [|c column IH]; simpl; [reflexivity|].
  rewrite IH. unfold overflows, cell_time.
  destruct (to_datetime c); simpl; [| |reflexivity];
    destruct (existsb _ column); reflexivity.
Qed.

Lemma existsb_map {A B : Type} (f : A -> B) (p : B -> bool) (l : list A) :
  existsb p (List.map f l) = existsb (fun x => p (f x)) l.
Proof. induction l as [|x l IH]; simpl; [reflexivity | rewrite IH; reflexivity]. Qed.

Lemma convert_rows_map (rows : list raw_row) (f l : raw_row -> option Z) :
  convert_rows rows (List.map f rows) (List.map l rows)
  = List.map (fun r => convert_row r (f r) (l r)) rows.
Proof.
  induction rows as [|r rows IH]; simpl; [reflexivity | rewrite IH; reflexivity].
Qed.

Lemma notna_converted_row (has_last : bool) (r : raw_row) :
  notna (converted_row has_last r) = valid_first r.
Proof.
  unfold notna, converted_row, valid_first, cell_time. simpl.
  destruct (to_datetime (raw_firstTimeDetected r)); reflexivity.
Qed.

Lemma dropna_map_convert (has_last : bool) (rows : list raw_row) :
  dropna (List.map (converted_row has_last) rows)
  = List.map (converted_row has_last) (List.filter valid_first rows).
Proof.
  unfold dropna.
  induction rows as [|r rows IH]; simpl; [reflexivity|].
  rewrite notna_converted_row.
  destruct (valid_first r); simpl; rewrite IH; reflexivity.
Qed.

(** The loader, row by row: it raises when a cell it converts overflows, and
    otherwise returns the converted rows that have a first-detection time. *)
Lemma load_data_spec (sh : sheet) :
  load_data sh
  = if load_raises sh then None
    else Some (List.map (converted_row (has_lastTimeDetected sh))
                 (List.filter valid_first (sheet_rows sh))).
Proof.
  unfold load_data, load_raises.
  rewrite !to_datetime_column_spec, !existsb_map.
  destruct (existsb (fun r => overflows (raw_firstTimeDetected r)) (sheet_rows sh));
    [reflexivity|].
  destruct (has_lastTimeDetected sh); simpl.
  - destruct (existsb (fun r => overflows (raw_lastTimeDetected r)) (sheet_rows sh));
      [reflexivity|].
    rewrite !List.map_map.
    rewrite (convert_rows_map _ (fun r => cell_time (raw_firstTimeDetected r))
               (fun r => cell_time (raw_lastTimeDetected r))).
    rewrite <- dropna_map_convert. reflexivity.
  - rewrite List.map_map.
    rewrite (convert_rows_map _ (fun r => cell_time (raw_firstTimeDetected r))
               (fun _ => None)).
    rewrite <- dropna_map_convert. reflexivity.
Qed.





Lemma coerce_ms_bounds (ms t : Z) :
  coerce_ms ms = Some t -> t = ms /\ -9223372036854 <= t <= 9223372036854.
Proof.
  unfold coerce_ms, ms_in_bounds.
  destruct (_ && _) eqn:Hb; [|discriminate].
  intros Heq. inversion Heq; subst.
  apply andb_true_iff in Hb. destruct Hb as [H1 H2].
  apply Z.leb_le in H1, H2. lia.
Qed.



Lemma number_to_datetime_bounds (ms t : Z) :
  number_to_datetime ms = Timestamp t -> -9223372036854 <= t <= 9223372036854.
Proof.
  unfold number_to_datetime, coerce.
  destruct (in_int64 ms).
  - destruct (coerce_ms ms) as [t'|] eqn:Hc; [|discriminate].
    intros Heq. inversion Heq; subst. apply coerce_ms_bounds in Hc. taut.
  - destruct (wide_ms ms) as [z|]; [|discriminate].
    destruct (coerce_ms z) as [t'|] eqn:Hc; [|discriminate].
    intros Heq. inversion Heq; subst. apply coerce_ms_bounds in Hc. taut.
Qed.

Lemma cell_time_bounds (c : cell) (t : Z) :
  cell_time c = Some t -> -9223372036854 <= t <= 9223372036854.
Proof.
  unfold cell_time. destruct (to_datetime c) as [t'| |] eqn:Hc; try discriminate.
  intros Heq. inversion Heq; subst.
  destruct c as [ms|s|]; simpl in Hc; [| |discriminate].
  - eapply number_to_datetime_bounds; eassumption.
  - destruct (text_ms s) as [ms|]; [|discriminate].
    eapply number_to_datetime_bounds; eassumption.
Qed.

(** The rows of a loaded table are converted rows of the sheet that have a
    first-detection time. *)
Lemma load_data_rows (sh : sheet) (df : list alarm) (r : alarm) :
  load_data sh = Some df -> In r df ->
  exists raw, In raw (sheet_rows sh)
              /\ r = converted_row (has_lastTimeDetected sh) raw
              /\ valid_first raw = true.
Proof.
  rewrite load_data_spec. destruct (load_raises sh); [discriminate|].
  intros Heq Hr. inversion Heq; subst. apply List.in_map_iff in Hr.
  destruct Hr as [raw [<- Hraw]]. apply List.filter_In in Hraw.
  exists raw. taut.
Qed.

(** ** Severity filter *)

Lemma isin_In (x : string) (selection : list string) :
  isin x selection = true <-> In x selection.
Proof.
  unfold isin. rewrite List.existsb_exists. split.
  - intros [y [Hy Heq]]. apply String.eqb_eq in Heq. subst. exact Hy.
  - intros Hx. exists x. split; [exact Hx | apply String.eqb_refl].
Qed.

Lemma matches_In (selection : list string) (r : alarm) :
  matches selection r = true
  <-> exists s, severity r = Some s /\ In (lower s) selection.
Proof.
  unfold matches. destruct (severity r) as [s|].
  - rewrite isin_In. split.
    + intros Hs. exists s. auto.
    + intros [s' [Heq Hs]]. inversion Heq; subst. exact Hs.
  - split; [discriminate|]. intros [s [Heq _]]. discriminate.
Qed.

Lemma apply_filter_In (selection : list string) (df : list alarm) (r : alarm) :
  In r (apply_filter selection df)
  <-> In r df /\ (selection = [] \/ matches selection r = true).
Proof.
  destruct selection as [|x sel]; simpl.
  - taut.
  - rewrite List.filter_In.
    split; intros [H1 H2]; split; auto.
    destruct H2 as [H2|H2]; [discriminate | exact H2].
Qed.





(** ** The key orders *)

Lemma ascii_compare_trans (a b c : ascii) :
  Ascii.compare a b = Lt -> Ascii.compare b c = Lt -> Ascii.compare a c = Lt.
Proof.
  unfold Ascii.compare. rewrite !N.compare_lt_iff. apply N.lt_trans.
Qed.

Lemma string_compare_trans (a b c : string) :
  String.compare a b = Lt -> String.compare b c = Lt -> String.compare a c = Lt.
Proof.
  revert b c. induction a as [|x a IH]; intros [|y b] [|z c]; simpl;
    try congruence.
  destruct (Ascii.compare x y) eqn:Hxy; try discriminate;
    destruct (Ascii.compare y z) eqn:Hyz; try discriminate; intros Hab Hbc.
  - apply Ascii.compare_eq_iff in Hxy, Hyz. subst.
    replace (Ascii.compare z z) with Eq
      by (symmetry; unfold Ascii.compare; apply N.compare_refl).
    eauto.
  - apply Ascii.compare_eq_iff in Hxy. subst. rewrite Hyz. reflexivity.
  - apply Ascii.compare_eq_iff in Hyz. subst. rewrite Hxy. reflexivity.
  - rewrite (ascii_compare_trans _ _ _ Hxy Hyz). reflexivity.
Qed.

#[global] Instance string_order_laws : KeyOrderLaws string.
Proof.
  split.
  - apply String.compare_eq_iff.
  - apply String.compare_antisym.
  - apply string_compare_trans.
Qed.

#[global] Instance month_site_order_laws : KeyOrderLaws (Z * string).
Proof.
  split; unfold kcmp, month_site_order.
  - intros [a1 a2] [b1 b2]; simpl.
    destruct (Z.compare a1 b1) eqn:Hc; try discriminate.
    intros Hs. apply Z.compare_eq in Hc. apply String.compare_eq_iff in Hs.
    congruence.
  - intros [a1 a2] [b1 b2]; simpl.
    rewrite (Z.compare_antisym b1 a1), (String.compare_antisym a2 b2).
    destruct (Z.compare b1 a1); reflexivity.
  - intros [a1 a2] [b1 b2] [c1 c2]; simpl.
    destruct (Z.compare a1 b1) eqn:Hab; try discriminate;
      destruct (Z.compare b1 c1) eqn:Hbc; try discriminate; intros H1 H2.
    + apply Z.compare_eq in Hab, Hbc. subst. rewrite Z.compare_refl.
      eapply string_compare_trans; eauto.
    + apply Z.compare_eq in Hab. subst. rewrite Hbc. reflexivity.
    + apply Z.compare_eq in Hbc. subst. rewrite Hab. reflexivity.
    + rewrite Z.compare_lt_iff in Hab, Hbc.
      assert (Hac : a1 < c1) by lia.
      rewrite <- Z.compare_lt_iff in Hac. rewrite Hac. reflexivity.
Qed.

(** ** Group-by *)

Section GroupByFacts.

Context {K : Type} `{KeyOrderLaws K}.

Lemma kcmp_refl (a : K) : kcmp a a = Eq.
Proof.
  pose proof (kcmp_antisym a a) as Ha.
  destruct (kcmp a a); simpl in Ha; congruence.
Qed.

Lemma key_eqb_eq (a b : K) : key_eqb a b = true <-> a = b.
Proof.
  unfold key_eqb. split.
  - destruct (kcmp a b) eqn:Hc; try discriminate. intros _.
    apply kcmp_eq. exact Hc.
  - intros ->. rewrite kcmp_refl. reflexivity.
Qed.

Lemma sum_values_cons (x : K * Z) (l : list (K * Z)) :
  sum_values (x :: l) = wrap64 (snd x + sum_values l).
Proof. unfold sum_values, sum64. simpl. rewrite wrap64_add_r. reflexivity. Qed.

Lemma sum_values_group_add (k : K) (v : Z) (groups : list (K * Z)) :
  sum_values (group_add k v groups) = wrap64 (sum_values groups + v).
Proof.
  unfold sum_values, sum64. rewrite wrap64_add_l.
  induction groups as [|[k' v'] rest IH]; simpl.
  - rewrite wrap64_add_l. f_equal. lia.
  - destruct (kcmp k k'); simpl.
    + rewrite wrap64_add_l. f_equal. lia.
    + rewrite wrap64_add_l. f_equal. lia.
    + rewrite <- wrap64_add_r, IH, wrap64_add_r. f_equal. lia.
Qed.

Lemma group_add_keys (k k0 : K) (v : Z) (groups : list (K * Z)) :
  In k0 (List.map fst (group_add k v groups))
  <-> k0 = k \/ In k0 (List.map fst groups).
Proof.
  induction groups as [|[k' v'] rest IH]; simpl.
  - logic.
  - destruct (kcmp k k') eqn:Hc; simpl.
    + apply kcmp_eq in Hc. subst. logic.
    + logic.
    + rewrite IH. logic.
Qed.

Lemma group_add_nonempty (k : K) (v : Z) (groups : list (K * Z)) :
  group_add k v groups <> [].
Proof.
  destruct groups as [|[k' v'] rest]; simpl; [discriminate|].
  destruct (kcmp k k'); discriminate.
Qed.

Lemma group_add_ascending (k : K) (v : Z) (groups : list (K * Z)) :
  ascending groups -> ascending (group_add k v groups).
Proof.
  unfold ascending.
  induction groups as [|[k' v'] rest IH]; intros Hs; simpl.
  - constructor; constructor.
  - inversion Hs as [|? ? Hrest Hall]; subst.
    destruct (kcmp k k') eqn:Hc.
    + apply kcmp_eq in Hc. subst. constructor; [exact Hrest | exact Hall].
    + constructor; [exact Hs|]. constructor; [exact Hc|].
      eapply List.Forall_impl; [|exact Hall]. simpl. intros a Ha.
      eapply kcmp_trans; eauto.
    + constructor; [apply IH; exact Hrest|].
      apply List.Forall_forall. intros [k0 v0] Hin. simpl.
      assert (Hk : In k0 (List.map fst (group_add k v rest))).
      { apply List.in_map_iff. exists (k0, v0). auto. }
      apply group_add_keys in Hk. destruct Hk as [->|Hk].
      * rewrite kcmp_antisym, Hc. reflexivity.
      * apply List.in_map_iff in Hk. destruct Hk as [[k1 v1] [Heq Hin1]].
        simpl in Heq. subst.
        rewrite List.Forall_forall in Hall. apply (Hall _ Hin1).
Qed.

Lemma lookup_key_group_add (k k0 : K) (v : Z) (groups : list (K * Z)) :
  ascending groups ->
  lookup_key k0 (group_add k v groups)
  = if key_eqb k0 k
    then Some (wrap64 (match lookup_key k0 groups with
                       | Some t => t + v
                       | None => v
                       end))
    else lookup_key k0 groups.
Proof.
  unfold ascending.
  induction groups as [|[k' v'] rest IH]; intros Hs; simpl.
  - destruct (key_eqb k0 k); reflexivity.
  - inversion Hs as [|? ? Hrest Hall]; subst.
    destruct (kcmp k k') eqn:Hc; simpl.
    + apply kcmp_eq in Hc. subst.
      destruct (key_eqb k0 k'); reflexivity.
    + destruct (key_eqb k0 k) eqn:Hk0; [|reflexivity].
      apply key_eqb_eq in Hk0. subst.
      unfold key_eqb at 1. rewrite Hc.
      assert (Hnone : lookup_key k rest = None).
      { clear - Hall Hc H0. induction rest as [|[k1 v1] rest IH]; simpl;
          [reflexivity|].
        inversion Hall as [|? ? Hlt Hall']; subst. simpl in Hlt.
        unfold key_eqb.
        rewrite (kcmp_trans _ _ _ Hc Hlt). apply IH. exact Hall'. }
      rewrite Hnone. reflexivity.
    + destruct (key_eqb k0 k') eqn:Hk0.
      * apply key_eqb_eq in Hk0. subst.
        unfold key_eqb. rewrite (kcmp_antisym k' k), Hc. reflexivity.
      * apply IH. exact Hrest.
Qed.

(** Every total of a group-by is a 64-bit integer. *)
Lemma group_add_int64 (k : K) (v : Z) (groups : list (K * Z)) :
  Forall (fun g => int64_min <= snd g <= int64_max) groups ->
  Forall (fun g => int64_min <= snd g <= int64_max) (group_add k v groups).
Proof.
  induction groups as [|[k' v'] rest IH]; intros Hall; simpl.
  - constructor; [apply wrap64_range | constructor].
  - inversion Hall as [|? ? Hv Hrest]; subst.
    destruct (kcmp k k').
    + constructor; [apply wrap64_range | exact Hrest].
    + constructor; [apply wrap64_range | exact Hall].
    + constructor; [exact Hv | apply IH; exact Hrest].
Qed.

End GroupByFacts.

Section GroupBySumFacts.

Context {K : Type} `{KeyOrderLaws K}.

Lemma fold_add_row_sum (rows : list (option K * Z)) (groups : list (K * Z)) :
  sum_values (fold_left add_row rows groups)
  = wrap64 (sum_values groups + sum_values (keyed rows)).
Proof.
  revert groups. induction rows as [|[[k|] v] rows IH]; intros groups; simpl.
  - unfold sum_values at 3. unfold sum64. simpl.
    change (wrap64 0) with 0. rewrite Z.add_0_r.
    unfold sum_values, sum64. rewrite wrap64_idem. reflexivity.
  - rewrite IH. unfold add_row. simpl. rewrite sum_values_group_add.
    rewrite sum_values_cons. simpl.
    rewrite wrap64_add_l, wrap64_add_r. f_equal. lia.
  - apply IH.
Qed.

Lemma groupby_sum_total (rows : list (option K * Z)) :
  sum_values (groupby_sum rows) = sum_values (keyed rows).
Proof.
  unfold groupby_sum. rewrite fold_add_row_sum.
  unfold sum_values at 1. unfold sum64. simpl. change (wrap64 0) with 0.
  unfold sum_values, sum64. rewrite Z.add_0_l. apply wrap64_idem.
Qed.

Lemma fold_add_row_ascending (rows : list (option K * Z)) (groups : list (K * Z)) :
  ascending groups -> ascending (fold_left add_row rows groups).
Proof.
  revert groups. induction rows as [|[[k|] v] rows IH]; intros groups Hs; simpl.
  - exact Hs.
  - apply IH. apply group_add_ascending. exact Hs.
  - apply IH. exact Hs.
Qed.

Lemma groupby_sum_ascending (rows : list (option K * Z)) :
  ascending (groupby_sum rows).
Proof. apply fold_add_row_ascending. constructor. Qed.

Lemma fold_add_row_int64 (rows : list (option K * Z)) (groups : list (K * Z)) :
  Forall (fun g => int64_min <= snd g <= int64_max) groups ->
  Forall (fun g => int64_min <= snd g <= int64_max) (fold_left add_row rows groups).
Proof.
  revert groups. induction rows as [|[[k|] v] rows IH]; intros groups Hs; simpl.
  - exact Hs.
  - apply IH. apply group_add_int64. exact Hs.
  - apply IH. exact Hs.
Qed.

Lemma groupby_sum_int64 (rows : list (option K * Z)) :
  Forall (fun g => int64_min <= snd g <= int64_max) (groupby_sum rows).
Proof. apply fold_add_row_int64. constructor. Qed.

Lemma fold_add_row_keys (rows : list (option K * Z)) (groups : list (K * Z)) (k : K) :
  In k (List.map fst (fold_left add_row rows groups))
  <-> In k (List.map fst groups) \/ In k (List.map fst (keyed rows)).
Proof.
  revert groups. induction rows as [|[[k'|] v] rows IH]; intros groups; simpl.
  - taut.
  - rewrite IH. unfold add_row. simpl. rewrite group_add_keys. logic.
  - apply IH.
Qed.

Lemma groupby_sum_keys (rows : list (option K * Z)) (k : K) :
  In k (List.map fst (groupby_sum rows)) <-> In k (List.map fst (keyed rows)).
Proof. unfold groupby_sum. rewrite fold_add_row_keys. simpl. taut. Qed.

Lemma fold_add_row_nonempty (rows : list (option K * Z)) (groups : list (K * Z)) :
  groups <> [] -> fold_left add_row rows groups <> [].
Proof.
  revert groups. induction rows as [|[[k|] v] rows IH]; intros groups Hne; simpl.
  - exact Hne.
  - apply IH. apply group_add_nonempty.
  - apply IH. exact Hne.
Qed.

Lemma groupby_sum_nil (rows : list (option K * Z)) :
  groupby_sum rows = [] <-> keyed rows = [].
Proof.
  unfold groupby_sum. split.
  - intros Hnil. destruct (keyed rows) as [|[k v] l] eqn:Hk; [reflexivity|].
    exfalso.
    assert (Hin : In k (List.map fst (fold_left add_row rows []))).
    { apply fold_add_row_keys. right. rewrite Hk. left. reflexivity. }
    rewrite Hnil in Hin. exact Hin.
  - induction rows as [|[[k|] v] rows IH]; simpl; intros Hk.
    + reflexivity.
    + discriminate.
    + apply IH. exact Hk.
Qed.

(** Rows without a key do not take part in the grouping. *)
Lemma fold_add_row_keyed (rows : list (option K * Z)) (groups : list (K * Z)) :
  fold_left add_row rows groups
  = fold_left add_row (List.map (fun kv => (Some (fst kv), snd kv)) (keyed rows))
      groups.
Proof.
  revert groups. induction rows as [|[[k|] v] rows IH]; intros groups; simpl.
  - reflexivity.
  - apply IH.
  - apply IH.
Qed.

(** The total of a key is the 64-bit sum of the values of the rows with that
    key. *)
Lemma fold_add_row_lookup (rows : list (option K * Z)) (groups : list (K * Z)) (k : K) :
  ascending groups ->
  lookup_key k (fold_left add_row rows groups)
  = match List.filter (fun kv => key_eqb k (fst kv)) (keyed rows) with
    | [] => lookup_key k groups
    | l => Some (wrap64 (match lookup_key k groups with Some t => t | None => 0 end
                         + zsum (List.map snd l)))
    end.
Proof.
  revert groups. induction rows as [|[[k'|] v] rows IH]; intros groups Hs; simpl.
  - reflexivity.
  - rewrite IH by (apply group_add_ascending; exact Hs).
    unfold add_row. simpl. rewrite (lookup_key_group_add _ _ _ _ Hs).
    destruct (key_eqb k k') eqn:Hk.
    + destruct (List.filter _ (keyed rows)) as [|y l];
        destruct (lookup_key k groups); unfold zsum; simpl;
        rewrite ?wrap64_add_l; do 2 f_equal; lia.
    + reflexivity.
  - apply IH. exact Hs.
Qed.

Lemma groupby_sum_lookup (rows : list (option K * Z)) (k : K) :
  lookup_key k (groupby_sum rows)
  = match List.filter (fun kv => key_eqb k (fst kv)) (keyed rows) with
    | [] => None
    | l => Some (sum_values l)
    end.
Proof.
  unfold groupby_sum. rewrite fold_add_row_lookup by constructor. simpl.
  destruct (List.filter _ (keyed rows)); reflexivity.
Qed.

(** In an ascending table a key has one row. *)
Lemma ascending_lookup (groups : list (K * Z)) (k : K) (v : Z) :
  ascending groups -> In (k, v) groups -> lookup_key k groups = Some v.
Proof.
  unfold ascending. induction groups as [|[k' v'] rest IH]; intros Hs Hin.
  - destruct Hin.
  - inversion Hs as [|? ? Hrest Hall]; subst. simpl.
    destruct Hin as [Heq|Hin].
    + inversion Heq; subst. unfold key_eqb. rewrite kcmp_refl. reflexivity.
    + rewrite List.Forall_forall in Hall. specialize (Hall _ Hin). simpl in Hall.
      unfold key_eqb. rewrite (kcmp_antisym k k'), Hall. simpl.
      apply IH; assumption.
Qed.

Lemma ascending_NoDup (groups : list (K * Z)) :
  ascending groups -> List.NoDup (List.map fst groups).
Proof.
  unfold ascending. induction 1 as [|g groups Hs IH Hall]; simpl.
  - constructor.
  - constructor; [|exact IH].
    intros Hin. apply List.in_map_iff in Hin. destruct Hin as [g' [Heq Hg']].
    rewrite List.Forall_forall in Hall. specialize (Hall _ Hg').
    rewrite Heq, kcmp_refl in Hall. discriminate.
Qed.

End GroupBySumFacts.

(** ** Sorting by total *)

Lemma insert_desc_perm {K : Type} (rank : K -> Z) (x : K * Z) (l : list (K * Z)) :
  Permutation (insert_desc rank x l) (x :: l).
Proof.
  induction l as [|y l IH]; simpl; [reflexivity|].
  destruct (goes_before rank x y); [reflexivity|].
  rewrite IH. apply perm_swap.
Qed.

Lemma sort_values_desc_perm {K : Type} (rank : K -> Z) (l : list (K * Z)) :
  Permutation (sort_values_desc rank l) l.
Proof.
  induction l as [|x l IH]; simpl; [reflexivity|].
  rewrite insert_desc_perm. constructor. exact IH.
Qed.

Lemma sum_values_perm {K : Type} (l l' : list (K * Z)) :
  Permutation l l' -> sum_values l = sum_values l'.
Proof.
  intros Hp. unfold sum_values, sum64. f_equal.
  apply zsum_perm, Permutation_map. exact Hp.
Qed.

Lemma sort_values_desc_nil {K : Type} (rank : K -> Z) (l : list (K * Z)) :
  sort_values_desc rank l = [] <-> l = [].
Proof.
  split.
  - intros Hs. apply Permutation_nil. rewrite <- Hs.
    apply sort_values_desc_perm.
  - intros ->. reflexivity.
Qed.

Lemma goes_before_ge {K : Type} (rank : K -> Z) (x y : K * Z) :
  goes_before rank x y = true -> snd y <= snd x.
Proof.
  unfold goes_before. intros Hb. apply orb_true_iff in Hb.
  destruct Hb as [Hb|Hb]; [apply Z.ltb_lt in Hb; lia|].
  apply andb_true_iff in Hb. destruct Hb as [Hb _]. apply Z.eqb_eq in Hb. lia.
Qed.

Lemma goes_before_le {K : Type} (rank : K -> Z) (x y : K * Z) :
  goes_before rank x y = false -> snd x <= snd y.
Proof.
  unfold goes_before. intros Hb. apply orb_false_iff in Hb.
  destruct Hb as [Hb _]. apply Z.ltb_ge in Hb. exact Hb.
Qed.

Lemma insert_desc_descending (rank : string -> Z) (x : string * Z)
      (l : list (string * Z)) :
  totals_descending l -> totals_descending (insert_desc rank x l).
Proof.
  unfold totals_descending.
  induction l as [|y l IH]; intros Hs; simpl.
  - constructor; constructor.
  - inversion Hs as [|? ? Hl Hall]; subst.
    destruct (goes_before rank x y) eqn:Hle.
    + apply goes_before_ge in Hle. constructor; [exact Hs|].
      constructor; [exact Hle|].
      eapply List.Forall_impl; [|exact Hall]. simpl. intros a Ha. lia.
    + apply goes_before_le in Hle. constructor; [apply IH; exact Hl|].
      apply List.Forall_forall. intros a Ha.
      apply (Permutation_in _ (insert_desc_perm rank x l)) in Ha.
      destruct Ha as [<-|Ha]; [lia|].
      rewrite List.Forall_forall in Hall. apply Hall. exact Ha.
Qed.

Lemma sort_values_desc_descending (rank : string -> Z) (l : list (string * Z)) :
  totals_descending (sort_values_desc rank l).
Proof.
  induction l as [|x l IH]; simpl.
  - constructor.
  - apply insert_desc_descending. exact IH.
Qed.

(** ** Month labels *)

Lemma str_Z_inj (a b : Z) : str_Z a = str_Z b -> a = b.
Proof.
  unfold str_Z. intros Heq. apply DecimalZ.to_int_inj.
  pose proof (NilEmpty.isi (Z.to_int a)) as Ha.
  rewrite Heq, NilEmpty.isi in Ha. congruence.
Qed.

Lemma digit_inj (a b : Z) :
  0 <= a < 10 -> 0 <= b < 10 -> digit a = digit b -> a = b.
Proof.
  unfold digit. intros Ha Hb Heq.
  apply (f_equal nat_of_ascii) in Heq.
  rewrite !nat_ascii_embedding in Heq by lia. lia.
Qed.

Lemma two_digits_inj (a b : Z) :
  0 <= a < 100 -> 0 <= b < 100 -> two_digits a = two_digits b -> a = b.
Proof.
  unfold two_digits. intros Ha Hb Heq. inversion Heq as [[H1 H2]].
  apply digit_inj in H1;
    [|split; [apply Z.div_pos; lia | apply Z.div_lt_upper_bound; lia]..].
  apply digit_inj in H2; [|apply Z.mod_pos_bound; lia..].
  rewrite (Z.div_mod a 10), (Z.div_mod b 10) by lia. lia.
Qed.

Lemma string_length_append (a b : string) :
  String.length (a ++ b) = (String.length a + String.length b)%nat.
Proof. induction a as [|c a IH]; simpl; [reflexivity | rewrite IH; reflexivity]. Qed.

Lemma append_inj_r (a b x y : string) :
  String.length x = String.length y ->
  (a ++ x)%string = (b ++ y)%string -> a = b /\ x = y.
Proof.
  intros Hlen. revert b. induction a as [|c a IH]; intros [|d b] Heq; simpl in Heq.
  - auto.
  - exfalso. apply (f_equal String.length) in Heq. simpl in Heq.
    rewrite string_length_append in Heq. lia.
  - exfalso. apply (f_equal String.length) in Heq. simpl in Heq.
    rewrite string_length_append in Heq. lia.
  - inversion Heq as [[Hc Hrest]]. apply IH in Hrest. destruct Hrest. subst. auto.
Qed.

Lemma strftime_Ym_inj (a b : Z) : strftime_Ym a = strftime_Ym b -> a = b.
Proof.
  unfold strftime_Ym. intros Heq.
  apply append_inj_r in Heq; [|reflexivity].
  destruct Heq as [Hy Hm]. apply str_Z_inj in Hy.
  assert (Hm' : two_digits (bin_month a) = two_digits (bin_month b)).
  { change (String "-" (two_digits (bin_month a))
            = String "-" (two_digits (bin_month b))) in Hm.
    congruence. }
  unfold bin_year, bin_month in *.
  assert (Ha : 0 <= a mod 12 < 12) by (apply Z.mod_pos_bound; lia).
  assert (Hb : 0 <= b mod 12 < 12) by (apply Z.mod_pos_bound; lia).
  apply two_digits_inj in Hm'; [|lia..].
  rewrite (Z.div_mod a 12), (Z.div_mod b 12) by lia. lia.
Qed.

(** ** Pivot *)

(** The entries [pivot] reads from a grouped table once the label column is
    there. *)
Lemma month_site_values_labelled (df : list alarm) :
  month_site_values (List.map with_month (grouped_by_month df))
  = Some (month_site_totals df).
Proof.
  unfold grouped_by_month, month_site_totals.
  induction (groupby_sum (List.map time_key df)) as [|g groups IH]; simpl;
    [reflexivity|].
  rewrite IH. reflexivity.
Qed.

Lemma same_entry_true (m s : string) (e : string * string * Z) :
  same_entry m s e = true <-> m = fst (fst e) /\ s = snd (fst e).
Proof.
  unfold same_entry. rewrite andb_true_iff, !String.eqb_eq. taut.
Qed.

Lemma ascending_no_duplicates (groups : list (Z * string * Z)) :
  ascending groups ->
  has_duplicates
    (List.map (fun g => (strftime_Ym (fst (fst g)), snd (fst g), snd g)) groups)
  = false.
Proof.
  unfold ascending. induction 1 as [|g groups Hs IH Hall]; simpl; [reflexivity|].
  rewrite IH, orb_false_r.
  destruct (existsb _ _) eqn:Hex; [|reflexivity]. exfalso.
  apply List.existsb_exists in Hex. destruct Hex as [e [Hin Hsame]].
  apply List.in_map_iff in Hin. destruct Hin as [g' [<- Hin]].
  apply same_entry_true in Hsame. simpl in Hsame. destruct Hsame as [Hm Hsite].
  apply strftime_Ym_inj in Hm.
  rewrite List.Forall_forall in Hall. specialize (Hall _ Hin).
  destruct g as [[b s] v], g' as [[b' s'] v']. simpl in *. subst.
  rewrite kcmp_refl in Hall. discriminate.
Qed.

Lemma entry_value_absent (m s : string) (entries : list (string * string * Z)) :
  (forall e, In e entries -> ~ (fst (fst e) = m /\ snd (fst e) = s)) ->
  entry_value m s entries = None.
Proof.
  intros Habs. unfold entry_value.
  destruct (List.find _ entries) as [e|] eqn:Hf; [|reflexivity].
  apply List.find_some in Hf. destruct Hf as [Hin Hsame].
  apply same_entry_true in Hsame. exfalso. apply (Habs e Hin).
  destruct Hsame. auto.
Qed.

Lemma promote_nth (values : list (list (option Z))) (i j : nat) :
  match nth_error (promote values) i with
  | Some row => nth_error row j
  | None => None
  end
  = option_map (as_stored (has_gaps values))
      match nth_error values i with
      | Some row => nth_error row j
      | None => None
      end.
Proof.
  unfold promote. rewrite List.nth_error_map.
  destruct (nth_error values i) as [row|]; simpl; [|reflexivity].
  apply List.nth_error_map.
Qed.

Lemma cell_at_pivot (entries : list (string * string * Z)) (p : pivot)
      (i j : nat) (m s : string) :
  pivot_entries entries = Some p ->
  nth_error (pivot_index p) i = Some m ->
  nth_error (pivot_columns p) j = Some s ->
  cell_at (fillna p) i j
  = Some (fill0 (as_stored (has_gaps (raw_values entries))
                   (entry_value m s entries))).
Proof.
  unfold pivot_entries. destruct (has_duplicates entries); [discriminate|].
  intros Hp. inversion Hp; subst; clear Hp. simpl. intros Hi Hj.
  unfold cell_at. simpl.
  rewrite List.nth_error_map.
  pose proof (promote_nth (raw_values entries) i j) as Hn.
  destruct (nth_error (promote (raw_values entries)) i) as [row|]; simpl.
  - rewrite List.nth_error_map, Hn. unfold raw_values.
    rewrite (List.map_nth_error _ _ _ Hi), (List.map_nth_error _ _ _ Hj).
    reflexivity.
  - exfalso. unfold raw_values in Hn.
    rewrite (List.map_nth_error _ _ _ Hi), (List.map_nth_error _ _ _ Hj) in Hn.
    discriminate.
Qed.


Lemma keyed_time_key (df : list alarm) (b : Z) (s : string) :
  In (b, s) (List.map fst (keyed (List.map time_key df)))
  <-> exists r t, In r df /\ firstTimeDetected r = Some t
                  /\ neName r = Some s /\ month_bin t = b.
Proof.
  induction df as [|r df IH]; simpl.
  - split; [taut | intros [r [t [[] _]]]].
  - unfold time_key at 1.
    destruct (firstTimeDetected r) as [t|] eqn:Ht;
      [destruct (neName r) as [site|] eqn:Hn|]; simpl; rewrite IH.
    + split.
      * intros [Heq|[r' [t' [Hin Hr']]]].
        -- inversion Heq; subst. exists r, t. auto.
        -- exists r', t'. auto.
      * intros [r' [t' [[->|Hin] [H1 [H2 H3]]]]].
        -- left. congruence.
        -- right. exists r', t'. auto.
    + split.
      * intros [r' [t' [Hin Hr']]]. exists r', t'. auto.
      * intros [r' [t' [[->|Hin] [H1 [H2 H3]]]]]; [congruence|].
        exists r', t'. auto.
    + split.
      * intros [r' [t' [Hin Hr']]]. exists r', t'. auto.
      * intros [r' [t' [[->|Hin] [H1 [H2 H3]]]]]; [congruence|].
        exists r', t'. auto.
Qed.

(** Line 106 never refuses the table of lines 97-103: a (month, site) pair
    has one row there. *)
Lemma pivot_table_df_time (df : list alarm) :
  pivot_table (List.map with_month (grouped_by_month df))
  = Some (fillna {| pivot_index := index_of (month_site_totals df);
                    pivot_columns := columns_of (month_site_totals df);
                    pivot_values := promote (raw_values (month_site_totals df)) |}).
Proof.
  unfold pivot_table. rewrite month_site_values_labelled.
  unfold pivot_entries, month_site_totals.
  rewrite ascending_no_duplicates by apply groupby_sum_ascending.
  reflexivity.
Qed.

Lemma pivot_entries_df_time (df : list alarm) :
  pivot_entries (month_site_totals df)
  = Some {| pivot_index := index_of (month_site_totals df);
            pivot_columns := columns_of (month_site_totals df);
            pivot_values := promote (raw_values (month_site_totals df)) |}.
Proof.
  unfold pivot_entries, month_site_totals.
  rewrite ascending_no_duplicates by apply groupby_sum_ascending.
  reflexivity.
Qed.

(** The matrix exists exactly when line 98 accepts the times of the
    table. *)
Lemma matrix_spec (df : list alarm) :
  matrix df
  = if bins_in_bounds df
    then Some (fillna {| pivot_index := index_of (month_site_totals df);
                         pivot_columns := columns_of (month_site_totals df);
                         pivot_values :=
                           promote (raw_values (month_site_totals df)) |})
    else None.
Proof.
  unfold matrix, df_time. destruct (bins_in_bounds df); [|reflexivity].
  apply pivot_table_df_time.
Qed.

(** Renaming by the dictionary of line 112 marks exactly the top sites. *)
Lemma rename_label_mark (tops : list string) (label : string) :
  rename_label (rename_map tops) label = mark tops label.
Proof.
  unfold rename_label, rename_map, mark, isin.
  induction tops as [|site tops IH]; simpl; [reflexivity|].
  destruct (String.eqb label site) eqn:Heq; simpl.
  - apply String.eqb_eq in Heq. subst. reflexivity.
  - exact IH.
Qed.

(** ** Running the script *)

Lemma bind_ok {A B : Type} (c : M A) (f : A -> M B) (w w' : world) (x : A) :
  c w = Some (x, w') -> (c ≫= f) w = f x w'.
Proof. intros Hc. unfold mbind, M_bind. rewrite Hc. reflexivity. Qed.

Lemma read_ok (r : ref) (f : frame) (w : world) :
  heap w !! r = Some f -> read r w = Some (f, w).
Proof. intros Hr. unfold read. rewrite Hr. reflexivity. Qed.

Lemma read_alarms_ok (r : ref) (rows : list alarm) (w : world) :
  heap w !! r = Some (Alarms rows) -> read_alarms r w = Some (rows, w).
Proof.
  intros Hr. unfold read_alarms. rewrite (bind_ok _ _ _ _ _ (read_ok _ _ _ Hr)).
  reflexivity.
Qed.

Lemma read_totals_ok (r : ref) (rows : list (string * Z)) (w : world) :
  heap w !! r = Some (SiteTotals rows) -> read_totals r w = Some (rows, w).
Proof.
  intros Hr. unfold read_totals. rewrite (bind_ok _ _ _ _ _ (read_ok _ _ _ Hr)).
  reflexivity.
Qed.

Lemma read_time_ok (r : ref) (rows : list time_row) (w : world) :
  heap w !! r = Some (TimeTotals rows) -> read_time r w = Some (rows, w).
Proof.
  intros Hr. unfold read_time. rewrite (bind_ok _ _ _ _ _ (read_ok _ _ _ Hr)).
  reflexivity.
Qed.

Lemma read_pivot_ok (r : ref) (p : pivot) (w : world) :
  heap w !! r = Some (PivotTable p) -> read_pivot r w = Some (p, w).
Proof.
  intros Hr. unfold read_pivot. rewrite (bind_ok _ _ _ _ _ (read_ok _ _ _ Hr)).
  reflexivity.
Qed.

Lemma write_ok (r : ref) (f g : frame) (w : world) :
  heap w !! r = Some g ->
  write r f w = Some (tt, {| heap := <[r := f]> (heap w); page := page w |}).
Proof. intros Hr. unfold write. rewrite Hr. reflexivity. Qed.

(** A fresh object sits right after the old store. *)
Lemma lookup_fresh (h new : list frame) (f : frame) :
  (h ++ f :: new) !! length h = Some f.
Proof. apply list_lookup_middle. reflexivity. Qed.

Lemma lookup_old (h new : list frame) (r : ref) (f : frame) :
  h !! r = Some f -> (h ++ new) !! r = Some f.
Proof. apply lookup_app_l_Some. Qed.

(** Writing to the newest object leaves the older ones alone. *)
Lemma insert_fresh (h : list frame) (f g : frame) :
  <[length h := g]> (h ++ [f]) = h ++ [g].
Proof.
  rewrite insert_app_r_alt by lia. rewrite Nat.sub_diag. reflexivity.
Qed.

Lemma filter_step_spec (df0 : ref) (selection : list string) (rows : list alarm)
      (w : world) :
  heap w !! df0 = Some (Alarms rows) ->
  exists df new,
    filter_step df0 selection w
    = Some (df, {| heap := heap w ++ new; page := page w |})
    /\ (heap w ++ new) !! df = Some (Alarms (apply_filter selection rows)).
Proof.
  intros Hdf0. destruct selection as [|x sel].
  - exists df0, []. rewrite app_nil_r. split; [|exact Hdf0].
    destruct w; reflexivity.
  - exists (length (heap w)), [Alarms (apply_filter (x :: sel) rows)]. split.
    + unfold filter_step.
      rewrite (bind_ok _ _ _ _ _ (read_alarms_ok _ _ _ Hdf0)). reflexivity.
    + apply lookup_fresh.
Qed.

Lemma details_spec (df sc : ref) (rows : list alarm) (totals : list (string * Z))
      (w : world) :
  heap w !! df = Some (Alarms rows) ->
  heap w !! sc = Some (SiteTotals totals) ->
  exists new,
    details df sc w
    = Some (tt,
            {| heap := heap w ++ new;
               page := page w
                       ++ [match totals with
                           | [] => Warning "No alarms to display."
                           | _ :: _ =>
                               Dataframe
                                 (List.map (set_neName (mark_name (top_sites totals)))
                                    rows)
                           end] |}).
Proof.
  intros Hdf Hsc.
  unfold details. rewrite (bind_ok _ _ _ _ _ (read_totals_ok _ _ _ Hsc)).
  destruct totals as [|t totals'].
  - exists []. rewrite app_nil_r. reflexivity.
  - exists [Alarms (List.map (set_neName (mark_name (top_sites (t :: totals')))) rows)].
    rewrite (bind_ok _ _ _ _ _ (read_alarms_ok _ _ _ Hdf)).
    erewrite bind_ok by reflexivity.
    unfold assign_neName.
    erewrite bind_ok.
    2:{ erewrite bind_ok by (apply read_alarms_ok; apply lookup_fresh).
        apply write_ok with (g := Alarms rows). apply lookup_fresh. }
    cbn [heap page]. rewrite insert_fresh.
    erewrite bind_ok by (apply read_alarms_ok; apply lookup_fresh).
    reflexivity.
Qed.

Lemma summary_cards_spec (sc : ref) (label : string) (totals : list (string * Z))
      (w : world) :
  heap w !! sc = Some (SiteTotals totals) ->
  summary_cards sc label w
  = Some (tt,
          {| heap := heap w;
             page := page w
                     ++ [Metric ("Total " ++ label)%string (MInt (sum_values totals));
                         Metric ("Average " ++ label ++ " per Site")%string
                           (MFloat (rounded_mean (List.map snd totals)));
                         Metric "Number of Sites"
                           (MInt (Z.of_nat (length totals)))] |}).
Proof.
  intros Hsc. unfold summary_cards.
  rewrite (bind_ok _ _ _ _ _ (read_totals_ok _ _ _ Hsc)).
  unfold emit, mbind, M_bind. cbn [heap page].
  rewrite <- !app_assoc. reflexivity.
Qed.

Lemma top_callouts_spec (sc : ref) (label : string) (totals : list (string * Z))
      (w : world) :
  heap w !! sc = Some (SiteTotals totals) ->
  top_callouts sc label w
  = Some (tt,
          {| heap := heap w;
             page := page w
                     ++ match totals with
                        | [] => []
                        | top_site :: others =>
                            Subheader ("Most " ++ label ++ " Site")%string
                            :: Success (fst top_site) (snd top_site) label
                            :: match others with
                               | [] => []
                               | next_site :: _ =>
                                   [Subheader
                                      ("Next Predicted " ++ label ++ " Site")%string;
                                    Info (fst next_site) (snd next_site) label]
                               end
                        end |}).
Proof.
  intros Hsc. unfold top_callouts.
  rewrite (bind_ok _ _ _ _ _ (read_totals_ok _ _ _ Hsc)).
  destruct totals as [|t [|n rest]]; unfold emit, mbind, M_bind, mret, M_ret;
    cbn [heap page]; rewrite <- ?app_assoc, ?app_nil_r; try reflexivity.
  destruct w; reflexivity.
Qed.

(** The last widget of a run: the heat map, or the exception of line 98. *)
Lemma heatmap_spec (df sc : ref) (label : string) (rows : list alarm)
      (totals : list (string * Z)) (w : world) :
  heap w !! df = Some (Alarms rows) ->
  heap w !! sc = Some (SiteTotals totals) ->
  exists new,
    heatmap df sc label w
    = Some (tt,
            {| heap := heap w ++ new;
               page := page w
                       ++ [match matrix rows with
                           | Some p =>
                               Heatmap
                                 match totals with
                                 | [] => p
                                 | _ :: _ =>
                                     rename_columns (rename_map (top_sites totals)) p
                                 end
                                 ("Heatmap of " ++ label
                                  ++ " by Site (horizontal) and Month (vertical)")%string
                           | None => Uncaught OutOfBoundsDatetime
                           end]
            |}).
Proof.
  intros Hdf Hsc. unfold heatmap.
  rewrite (bind_ok _ _ _ _ _ (read_alarms_ok _ _ _ Hdf)).
  unfold matrix. destruct (df_time rows) as [grouped|] eqn:Hg.
  2:{ exists []. rewrite app_nil_r. reflexivity. }
  assert (Hp : exists p, pivot_table (List.map with_month grouped) = Some p).
  { unfold df_time in Hg. destruct (bins_in_bounds rows); [|discriminate].
    inversion Hg; subst. rewrite pivot_table_df_time. eexists. reflexivity. }
  destruct Hp as [p Hp]. rewrite Hp.
  unfold heatmap_of.
  erewrite bind_ok by reflexivity.
  unfold assign_month.
  erewrite bind_ok.
  2:{ erewrite bind_ok by (apply read_time_ok; apply lookup_fresh).
      apply write_ok with (g := TimeTotals grouped). apply lookup_fresh. }
  cbn [heap page]. rewrite insert_fresh.
  erewrite bind_ok by (apply read_time_ok; apply lookup_fresh).
  rewrite Hp. unfold lift_option.
  erewrite bind_ok by reflexivity.
  erewrite bind_ok by reflexivity.
  erewrite bind_ok.
  2:{ apply read_totals_ok. cbn [heap page].
      rewrite <- app_assoc. apply lookup_old. exact Hsc. }
  destruct totals as [|t totals'].
  - erewrite bind_ok by reflexivity.
    erewrite bind_ok.
    2:{ apply read_pivot_ok. cbn [heap page]. apply lookup_fresh. }
    unfold emit. cbn [heap page]. rewrite <- app_assoc. eexists. reflexivity.
  - erewrite bind_ok.
    2:{ erewrite bind_ok.
        2:{ apply read_pivot_ok. cbn [heap page]. apply lookup_fresh. }
        reflexivity. }
    erewrite bind_ok.
    2:{ apply read_pivot_ok. cbn [heap page]. apply lookup_fresh. }
    unfold emit. cbn [heap page]. rewrite <- !app_assoc. eexists. reflexivity.
Qed.

(** The whole run, from any world in which [df0] names the loaded table: it
    ends, it only adds objects to the store, and it appends this page. *)
Lemma pipeline_spec (df0 : ref) (selection : list string) (rows : list alarm)
      (w : world) :
  heap w !! df0 = Some (Alarms rows) ->
  exists new,
    pipeline df0 selection w
    = Some (tt,
            {| heap := heap w ++ new;
               page :=
                 page w
                 ++ [Subheader "Alarm Details";
                     match site_criticals (apply_filter selection rows) with
                     | [] => Warning "No alarms to display."
                     | _ :: _ =>
                         Dataframe
                           (List.map
                              (set_neName
                                 (mark_name
                                    (top_sites
                                       (site_criticals
                                          (apply_filter selection rows)))))
                              (apply_filter selection rows))
                     end;
                     Metric ("Total " ++ severity_label selection)%string
                       (MInt (sum_values
                                (site_criticals (apply_filter selection rows))));
                     Metric ("Average " ++ severity_label selection
                             ++ " per Site")%string
                       (MFloat
                          (rounded_mean
                             (List.map snd
                                (site_criticals (apply_filter selection rows)))));
                     Metric "Number of Sites"
                       (MInt (Z.of_nat
                                (length
                                   (site_criticals
                                      (apply_filter selection rows)))))]
                 ++ match site_criticals (apply_filter selection rows) with
                    | [] => []
                    | top_site :: others =>
                        Subheader
                          ("Most " ++ severity_label selection ++ " Site")%string
                        :: Success (fst top_site) (snd top_site)
                             (severity_label selection)
                        :: match others with
                           | [] => []
                           | next_site :: _ =>
                               [Subheader
                                  ("Next Predicted " ++ severity_label selection
                                   ++ " Site")%string;
                                Info (fst next_site) (snd next_site)
                                  (severity_label selection)]
                           end
                    end
                 ++ [Subheader "Charts";
                     BarChart (site_criticals (apply_filter selection rows))
                       (severity_label selection ++ " by Site")%string;
                     match matrix (apply_filter selection rows) with
                     | Some p =>
                         Heatmap
                           match site_criticals (apply_filter selection rows) with
                           | [] => p
                           | _ :: _ =>
                               rename_columns
                                 (rename_map
                                    (top_sites
                                       (site_criticals
                                          (apply_filter selection rows))))
                                 p
                           end
                           ("Heatmap of " ++ severity_label selection
                            ++ " by Site (horizontal) and Month (vertical)")%string
                     | None => Uncaught OutOfBoundsDatetime
                     end]
            |}).
Proof.
  intros Hdf0.
  set (df_rows := apply_filter selection rows) in *.
  set (totals := site_criticals df_rows).
  set (label := severity_label selection).
  destruct (filter_step_spec df0 selection rows w Hdf0) as [df [n1 [Hf Hdf]]].
  fold df_rows in Hdf.
  unfold pipeline. rewrite (bind_ok _ _ _ _ _ Hf). fold label.
  erewrite bind_ok by (apply read_alarms_ok; exact Hdf).
  erewrite bind_ok by reflexivity. fold totals.
  erewrite bind_ok by reflexivity.
  cbn [heap page].
  set (sc := length (heap w ++ n1)).
  assert (Hsc : forall new pg,
             heap {| heap := ((heap w ++ n1) ++ [SiteTotals totals]) ++ new;
                     page := pg |} !! sc = Some (SiteTotals totals)).
  { intros new pg. cbn [heap]. rewrite <- app_assoc. apply lookup_fresh. }
  assert (Hdf' : forall new pg,
             heap {| heap := ((heap w ++ n1) ++ [SiteTotals totals]) ++ new;
                     page := pg |} !! df = Some (Alarms df_rows)).
  { intros new pg. cbn [heap]. rewrite <- app_assoc. apply lookup_old. exact Hdf. }
  destruct (details_spec df sc df_rows totals
              {| heap := ((heap w ++ n1) ++ [SiteTotals totals]) ++ [];
                 page := page w ++ [Subheader "Alarm Details"] |}
              (Hdf' _ _) (Hsc _ _)) as [n2 Hd].
  cbn [heap page] in Hd. rewrite app_nil_r in Hd.
  rewrite (bind_ok _ _ _ _ _ Hd).
  erewrite bind_ok by (apply summary_cards_spec; apply Hsc).
  erewrite bind_ok by (apply top_callouts_spec; apply Hsc).
  erewrite bind_ok by reflexivity.
  erewrite bind_ok by (apply read_totals_ok; apply Hsc).
  erewrite bind_ok by reflexivity.
  cbn [heap page].
  match goal with
  | |- context [heatmap df sc label ?w0] =>
      destruct (heatmap_spec df sc label df_rows totals w0
                  (Hdf' _ _) (Hsc _ _)) as [n3 Hh]
  end.
  rewrite Hh. cbn [heap page].
  exists (n1 ++ [SiteTotals totals] ++ n2 ++ n3).
  cbn [heap page]. repeat rewrite <- app_assoc. reflexivity.
Qed.

(** The page of a run on a freshly loaded table. *)
Lemma run_spec (rows : list alarm) (selection : list string) :
  exists w new,
    run rows selection = Some w
    /\ pipeline 0%nat selection {| heap := [Alarms rows]; page := [] |}
       = Some (tt, w)
    /\ heap w = [Alarms rows] ++ new.
Proof.
  destruct (pipeline_spec 0%nat selection rows
              {| heap := [Alarms rows]; page := [] |} eq_refl) as [new Hrun].
  unfold run. rewrite Hrun. eexists. exists new.
  split; [reflexivity|]. split; reflexivity.
Qed.

(** ** Aggregator *)

Lemma keyed_site_key (df : list alarm) :
  keyed (List.map site_key df)
  = List.map (fun r => (match neName r with Some s => s | None => "" end,
                        numberOfOccurrences r))
      (List.filter has_site df).
Proof.
  induction df as [|r df IH]; [reflexivity|].
  cbn [List.map List.filter]. unfold has_site at 1, site_key at 1.
  destruct (neName r) eqn:Hn; cbn [keyed List.map]; rewrite IH, ?Hn; reflexivity.
Qed.

Lemma sum_values_keyed_site (df : list alarm) :
  sum_values (keyed (List.map site_key df))
  = wrap64 (total_occurrences (List.filter has_site df)).
Proof.
  rewrite keyed_site_key. unfold sum_values, sum64, total_occurrences.
  rewrite List.map_map. reflexivity.
Qed.

Lemma site_criticals_total (df : list alarm) :
  sum_values (site_criticals df)
  = wrap64 (total_occurrences (List.filter has_site df)).
Proof.
  unfold site_criticals.
  rewrite (sum_values_perm _ _ (sort_values_desc_perm _ _)).
  rewrite groupby_sum_total. apply sum_values_keyed_site.
Qed.

Lemma key_eqb_string (a b : string) : key_eqb a b = String.eqb a b.
Proof.
  destruct (String.eqb a b) eqn:Heq.
  - apply String.eqb_eq in Heq. apply key_eqb_eq. exact Heq.
  - destruct (key_eqb a b) eqn:Hk; [|reflexivity].
    apply key_eqb_eq in Hk. apply String.eqb_neq in Heq. contradiction.
Qed.

Lemma keyed_site_rows (df : list alarm) (s : string) :
  List.filter (fun kv => key_eqb s (fst kv)) (keyed (List.map site_key df))
  = List.map (fun r => (s, numberOfOccurrences r)) (List.filter (of_site s) df).
Proof.
  induction df as [|r df IH]; [reflexivity|].
  cbn [List.map List.filter]. unfold of_site at 1, site_key at 1.
  destruct (neName r) as [s'|] eqn:Hn; cbn [keyed List.filter fst]; [|exact IH].
  rewrite key_eqb_string. destruct (String.eqb s s') eqn:Heq.
  - apply String.eqb_eq in Heq. subst s'. cbn [List.map]. rewrite IH. reflexivity.
  - exact IH.
Qed.

(** A row of the site totals holds the 64-bit sum of the counts of the rows
    of its site, and there is at least one such row. *)
Lemma site_criticals_row_total (df : list alarm) (s : string) (t : Z) :
  In (s, t) (site_criticals df) ->
  t = wrap64 (total_occurrences (List.filter (of_site s) df))
  /\ List.filter (of_site s) df <> [].
Proof.
  unfold site_criticals. intros Hin.
  apply (Permutation_in _ (sort_values_desc_perm _ _)) in Hin.
  apply (ascending_lookup _ _ _ (groupby_sum_ascending _)) in Hin.
  rewrite groupby_sum_lookup, keyed_site_rows in Hin.
  destruct (List.filter (of_site s) df) as [|r l]; [discriminate|].
  split; [|discriminate].
  cbn [List.map] in Hin. inversion Hin as [Ht].
  unfold sum_values, sum64, total_occurrences. cbn [List.map snd].
  rewrite List.map_map. reflexivity.
Qed.





Lemma site_criticals_nil (df : list alarm) :
  site_criticals df = [] <-> List.filter has_site df = [].
Proof.
  unfold site_criticals.
  rewrite sort_values_desc_nil, groupby_sum_nil, keyed_site_key.
  split.
  - apply List.map_eq_nil.
  - intros ->. reflexivity.
Qed.


(** The maximum of a column. *)
Lemma fold_max_ge (l : list Z) (x : Z) :
  x <= fold_left Z.max l x /\ Forall (fun y => y <= fold_left Z.max l x) l.
Proof.
  revert x. induction l as [|y l IH]; intros x; simpl.
  - split; [lia | constructor].
  - destruct (IH (Z.max x y)) as [H1 H2]. split; [lia|].
    constructor; [lia | exact H2].
Qed.

Lemma fold_max_in (l : list Z) (x : Z) : In (fold_left Z.max l x) (x :: l).
Proof.
  revert x. induction l as [|y l IH]; intros x; simpl.
  - auto.
  - destruct (IH (Z.max x y)) as [Heq|Hin]; [|auto].
    rewrite <- Heq.
    destruct (Z.max_spec x y) as [[_ Hm]|[_ Hm]]; rewrite Hm; auto.
Qed.

Lemma series_max_greatest (l : list Z) (t : Z) :
  In t l -> (forall y, In y l -> y <= t) -> series_max l = Some t.
Proof.
  destruct l as [|x l]; [intros []|]. intros Hin Hub. simpl. f_equal.
  destruct (fold_max_ge l x) as [H1 H2].
  pose proof (fold_max_in l x) as H3.
  specialize (Hub _ H3).
  assert (Hle : t <= fold_left Z.max l x).
  { destruct Hin as [<-|Hin]; [exact H1|].
    rewrite List.Forall_forall in H2. apply H2. exact Hin. }
  lia.
Qed.

(** Every site whose total is the greatest is a top site, and gets the
    marker. *)
Lemma top_sites_all_maxima (totals : list (string * Z)) (s : string) (t : Z) :
  In (s, t) totals ->
  (forall s' t', In (s', t') totals -> t' <= t) ->
  In s (top_sites totals)
  /\ mark (top_sites totals) s = (s ++ siren)%string.
Proof.
  intros Hin Hub.
  assert (Hmax : max_crit totals = Some t).
  { unfold max_crit. apply series_max_greatest.
    - apply List.in_map_iff. exists (s, t). auto.
    - intros y Hy. apply List.in_map_iff in Hy. destruct Hy as [[s' t'] [<- Hy]].
      simpl. eapply Hub. exact Hy. }
  assert (Htop : In s (top_sites totals)).
  { unfold top_sites. apply List.in_map_iff. exists (s, t). split; [reflexivity|].
    apply List.filter_In. split; [exact Hin|].
    rewrite Hmax. simpl. apply Z.eqb_refl. }
  split; [exact Htop|].
  unfold mark. apply isin_In in Htop. rewrite Htop. reflexivity.
Qed.

(** Conversely a top site has the greatest total. *)
Lemma top_sites_only_maxima (totals : list (string * Z)) (s : string) :
  In s (top_sites totals) ->
  exists t, In (s, t) totals /\ forall s' t', In (s', t') totals -> t' <= t.
Proof.
  unfold top_sites. intros Hin. apply List.in_map_iff in Hin.
  destruct Hin as [[s0 t] [Hs Hin]]. simpl in Hs. subst s0.
  apply List.filter_In in Hin. destruct Hin as [Hin Hmax].
  exists t. split; [exact Hin|].
  unfold is_max, max_crit in Hmax.
  destruct totals as [|x totals']; [destruct Hin|].
  simpl in Hmax. apply Z.eqb_eq in Hmax. simpl in Hmax.
  intros s' t' Hin'.
  destruct (fold_max_ge (List.map snd totals') (snd x)) as [H1 H2].
  rewrite <- Hmax in *.
  destruct Hin' as [->|Hin']; [exact H1|].
  rewrite List.Forall_forall in H2. apply H2.
  apply List.in_map_iff. exists (s', t'). auto.
Qed.



(** ** The axes and the cells of the matrix *)

Lemma insert_label_In (s x : string) (l : list string) :
  In x (insert_label s l) <-> x = s \/ In x l.
Proof.
  induction l as [|y l IH]; simpl; [logic|].
  destruct (String.compare s y) eqn:Hc; simpl.
  - apply String.compare_eq_iff in Hc. subst. logic.
  - logic.
  - rewrite IH. logic.
Qed.

Lemma axis_labels_In (x : string) (l : list string) :
  In x (axis_labels l) <-> In x l.
Proof.
  induction l as [|y l IH]; simpl; [taut|].
  rewrite insert_label_In, IH. logic.
Qed.

Lemma insert_label_ascending (s : string) (l : list string) :
  labels_ascending l -> labels_ascending (insert_label s l).
Proof.
  unfold labels_ascending.
  induction l as [|y l IH]; intros Hs; simpl.
  - constructor; constructor.
  - inversion Hs as [|? ? Hl Hall]; subst.
    destruct (String.compare s y) eqn:Hc.
    + exact Hs.
    + constructor; [exact Hs|]. constructor; [exact Hc|].
      eapply List.Forall_impl; [|exact Hall]. simpl. intros a Ha.
      eapply string_compare_trans; eauto.
    + constructor; [apply IH; exact Hl|].
      apply List.Forall_forall. intros a Ha. apply insert_label_In in Ha.
      destruct Ha as [->|Ha].
      * rewrite String.compare_antisym, Hc. reflexivity.
      * rewrite List.Forall_forall in Hall. apply Hall. exact Ha.
Qed.

Lemma axis_labels_ascending (l : list string) : labels_ascending (axis_labels l).
Proof.
  induction l as [|x l IH]; simpl.
  - constructor.
  - apply insert_label_ascending. exact IH.
Qed.

Lemma labels_ascending_NoDup (l : list string) :
  labels_ascending l -> List.NoDup l.
Proof.
  unfold labels_ascending. induction 1 as [|x l Hs IH Hall].
  - constructor.
  - constructor; [|exact IH]. intros Hin.
    rewrite List.Forall_forall in Hall. specialize (Hall _ Hin).
    pose proof (kcmp_refl (K := string) x) as Hx.
    unfold kcmp, string_order in Hx. congruence.
Qed.

Lemma key_eqb_month_site (b b' : Z) (s s' : string) :
  key_eqb (b, s) (b', s') = (b' =? b) && String.eqb s s'.
Proof.
  destruct ((b' =? b) && String.eqb s s') eqn:Heq.
  - apply andb_true_iff in Heq. destruct Heq as [Hb Hs].
    apply Z.eqb_eq in Hb. apply String.eqb_eq in Hs. subst.
    apply key_eqb_eq. reflexivity.
  - destruct (key_eqb (b, s) (b', s')) eqn:Hk; [|reflexivity].
    apply key_eqb_eq in Hk. inversion Hk; subst.
    rewrite Z.eqb_refl, String.eqb_refl in Heq. discriminate.
Qed.

Lemma same_entry_key (b : Z) (s : string) (g : Z * string * Z) :
  same_entry (strftime_Ym b) s (strftime_Ym (fst (fst g)), snd (fst g), snd g)
  = key_eqb (b, s) (fst g).
Proof.
  destruct g as [[b' s'] v]. simpl. rewrite key_eqb_month_site.
  unfold same_entry. simpl. f_equal.
  destruct (b' =? b) eqn:Hb.
  - apply Z.eqb_eq in Hb. subst. apply String.eqb_refl.
  - destruct (String.eqb _ _) eqn:Hl; [|reflexivity].
    apply String.eqb_eq, strftime_Ym_inj in Hl. subst.
    rewrite Z.eqb_refl in Hb. discriminate.
Qed.

Lemma entry_value_lookup (groups : list (Z * string * Z)) (b : Z) (s : string) :
  entry_value (strftime_Ym b) s
    (List.map (fun g => (strftime_Ym (fst (fst g)), snd (fst g), snd g)) groups)
  = lookup_key (b, s) groups.
Proof.
  unfold entry_value.
  induction groups as [|g groups IH]; [reflexivity|].
  cbn [List.map List.find]. rewrite same_entry_key.
  destruct g as [k v]. cbn [lookup_key fst snd].
  destruct (key_eqb (b, s) k); [reflexivity | exact IH].
Qed.

Lemma keyed_time_rows (df : list alarm) (b : Z) (s : string) :
  List.filter (fun kv => key_eqb (b, s) (fst kv)) (keyed (List.map time_key df))
  = List.map (fun r => ((b, s), numberOfOccurrences r))
      (List.filter (in_cell b s) df).
Proof.
  induction df as [|r df IH]; [reflexivity|].
  cbn [List.map List.filter]. unfold in_cell at 1, time_key at 1.
  destruct (firstTimeDetected r) as [t|]; [|exact IH].
  destruct (neName r) as [s'|]; [|exact IH].
  cbn [keyed List.filter fst]. rewrite key_eqb_month_site.
  destruct ((month_bin t =? b) && String.eqb s s') eqn:Hc; [|exact IH].
  apply andb_true_iff in Hc. destruct Hc as [Hb Hs].
  apply Z.eqb_eq in Hb. apply String.eqb_eq in Hs. subst.
  cbn [List.map]. rewrite IH. reflexivity.
Qed.

(** The value the grouped table of lines 97-101 holds for a month and a
    site. *)
Lemma month_site_lookup (df : list alarm) (b : Z) (s : string) :
  lookup_key (b, s) (groupby_sum (List.map time_key df))
  = match List.filter (in_cell b s) df with
    | [] => None
    | l => Some (wrap64 (total_occurrences l))
    end.
Proof.
  rewrite groupby_sum_lookup, keyed_time_rows.
  destruct (List.filter (in_cell b s) df) as [|r l]; [reflexivity|].
  cbn [List.map]. f_equal.
  unfold sum_values, sum64, total_occurrences. cbn [List.map snd].
  rewrite List.map_map. reflexivity.
Qed.

Lemma month_site_totals_keys (df : list alarm) (m s : string) :
  (exists v, In (m, s, v) (month_site_totals df))
  <-> exists r t, In r df /\ firstTimeDetected r = Some t
                  /\ neName r = Some s /\ strftime_Ym (month_bin t) = m.
Proof.
  unfold month_site_totals. split.
  - intros [v Hin]. apply List.in_map_iff in Hin.
    destruct Hin as [[[b s'] v'] [Heq Hg]]. simpl in Heq. inversion Heq; subst.
    assert (Hk : In (b, s) (List.map fst (groupby_sum (List.map time_key df)))).
    { apply List.in_map_iff. exists (b, s, v). auto. }
    apply groupby_sum_keys, keyed_time_key in Hk.
    destruct Hk as [r [t [Hr [Ht [Hn Hb]]]]]. exists r, t. rewrite Hb. auto.
  - intros [r [t [Hr [Ht [Hn Hm]]]]].
    assert (Hk : In (month_bin t, s)
                   (List.map fst (groupby_sum (List.map time_key df)))).
    { apply groupby_sum_keys, keyed_time_key. exists r, t. auto. }
    apply List.in_map_iff in Hk. destruct Hk as [[[b s'] v] [Hg Hin]].
    simpl in Hg. inversion Hg; subst. exists v.
    apply List.in_map_iff. exists (month_bin t, s, v). auto.
Qed.

(** What the axes of the matrix hold. *)
Lemma index_of_In (df : list alarm) (m : string) :
  In m (index_of (month_site_totals df))
  <-> exists r t s, In r df /\ firstTimeDetected r = Some t
                    /\ neName r = Some s /\ strftime_Ym (month_bin t) = m.
Proof.
  unfold index_of. rewrite axis_labels_In, List.in_map_iff. split.
  - intros [[[m' s] v] [Heq Hin]]. simpl in Heq. subst m'.
    destruct (proj1 (month_site_totals_keys df m s)) as [r [t Hr]];
      [exists v; exact Hin|].
    exists r, t, s. exact Hr.
  - intros [r [t [s Hr]]].
    destruct (proj2 (month_site_totals_keys df m s)) as [v Hin];
      [exists r, t; exact Hr|].
    exists (m, s, v). auto.
Qed.

Lemma columns_of_In (df : list alarm) (s : string) :
  In s (columns_of (month_site_totals df))
  <-> exists r t, In r df /\ firstTimeDetected r = Some t /\ neName r = Some s.
Proof.
  unfold columns_of. rewrite axis_labels_In, List.in_map_iff. split.
  - intros [[[m s'] v] [Heq Hin]]. simpl in Heq. subst s'.
    destruct (proj1 (month_site_totals_keys df m s)) as [r [t Hr]];
      [exists v; exact Hin|].
    exists r, t. taut.
  - intros [r [t [Hr [Ht Hn]]]].
    destruct (proj2 (month_site_totals_keys df (strftime_Ym (month_bin t)) s))
      as [v Hin]; [exists r, t; auto|].
    exists (strftime_Ym (month_bin t), s, v). auto.
Qed.

(** The matrix, when line 98 does not raise: its axes and its cells. *)
Lemma matrix_shape (df : list alarm) (p : pivot) :
  matrix df = Some p ->
  bins_in_bounds df = true
  /\ pivot_index p = index_of (month_site_totals df)
  /\ pivot_columns p = columns_of (month_site_totals df)
  /\ pivot_values p
     = List.map (List.map fill0) (promote (raw_values (month_site_totals df))).
Proof.
  rewrite matrix_spec. destruct (bins_in_bounds df); [|discriminate].
  intros Hp. inversion Hp; subst. repeat split; reflexivity.
Qed.

Lemma matrix_cell (df : list alarm) (p : pivot) (i j : nat) (m s : string) :
  matrix df = Some p ->
  nth_error (pivot_index p) i = Some m ->
  nth_error (pivot_columns p) j = Some s ->
  cell_at p i j
  = Some (fill0 (as_stored (matrix_is_float df)
                   (entry_value m s (month_site_totals df)))).
Proof.
  rewrite matrix_spec. destruct (bins_in_bounds df); [|discriminate].
  intros Hp. inversion Hp; subst; clear Hp. cbn [fillna pivot_index pivot_columns].
  intros Hi Hj.
  apply (cell_at_pivot (month_site_totals df) _ i j m s
           (pivot_entries_df_time df) Hi Hj).
Qed.

Lemma as_stored_none (float : bool) : as_stored float None = None.
Proof. destruct float; reflexivity. Qed.


Lemma filter_nil_forallb {A : Type} (p : A -> bool) (l : list A) :
  forallb (fun x => negb (p x)) l = true <-> List.filter p l = [].
Proof.
  induction l as [|x l IH]; simpl; [taut|].
  destruct (p x); simpl; [split; discriminate | exact IH].
Qed.

(** The members of the top sites do not depend on the order of the
    totals. *)
Lemma top_sites_In (totals : list (string * Z)) (s : string) :
  In s (top_sites totals)
  <-> exists t, In (s, t) totals /\ forall s' t', In (s', t') totals -> t' <= t.
Proof.
  split; [apply top_sites_only_maxima|].
  intros [t [Hin Hub]]. apply (top_sites_all_maxima totals s t Hin Hub).
Qed.

Lemma top_sites_perm (l l' : list (string * Z)) (s : string) :
  Permutation l l' -> In s (top_sites l) <-> In s (top_sites l').
Proof.
  intros Hp. rewrite !top_sites_In. split; intros [t [Hin Hub]]; exists t; split.
  - eapply Permutation_in; eassumption.
  - intros s' t' Hin'. apply (Hub s'). eapply Permutation_in;
      [apply Permutation_sym|]; eassumption.
  - eapply Permutation_in; [apply Permutation_sym|]; eassumption.
  - intros s' t' Hin'. apply (Hub s'). eapply Permutation_in; eassumption.
Qed.

Lemma mark_ext (tops tops' : list string) (s : string) :
  (In s tops <-> In s tops') -> mark tops s = mark tops' s.
Proof.
  intros Hiff. unfold mark.
  destruct (isin s tops) eqn:H1, (isin s tops') eqn:H2; try reflexivity.
  - apply isin_In, Hiff, isin_In in H1. congruence.
  - apply isin_In, Hiff, isin_In in H2. congruence.
Qed.

(** Marking by the top sites of the sorted totals is marking by the top
    sites of the group totals, whatever order the sort gives to ties. *)
Lemma mark_site_criticals (df : list alarm) (s : string) :
  mark (top_sites (site_criticals df)) s
  = mark (top_sites (groupby_sum (List.map site_key df))) s.
Proof.
  apply mark_ext, top_sites_perm. unfold site_criticals.
  apply sort_values_desc_perm.
Qed.

Lemma mark_other (tops : list string) (s : string) :
  ~ In s tops -> mark tops s = s.
Proof.
  intros Hn. unfold mark. destruct (isin s tops) eqn:Hi; [|reflexivity].
  apply isin_In in Hi. contradiction.
Qed.

Lemma mark_top (tops : list string) (s : string) :
  In s tops -> mark tops s = (s ++ siren)%string.
Proof. intros Hin. unfold mark. apply isin_In in Hin. rewrite Hin. reflexivity. Qed.

Lemma append_siren_neq (s : string) : (s ++ siren)%string <> s.
Proof.
  intros Heq. apply (f_equal String.length) in Heq.
  rewrite string_length_append in Heq. simpl in Heq. lia.
Qed.

(** * Main results *)




(** C4.  With an empty severity selection the filter returns the table it
    was given: the same rows, hence the same size, and in the script the very
    same table object (no copy is made). *)
Theorem empty_selection_keeps_all (df : list alarm) (df0 : ref) (w : world) :
  apply_filter [] df = df
  /\ length (apply_filter [] df) = length df
  /\ (forall r, In r df -> In r (apply_filter [] df))
  /\ filter_step df0 [] w = Some (df0, w).
Proof. repeat split; auto. Qed.





Lemma top_sites_greatest (totals : list (string * Z)) (s : string) :
  In s (top_sites totals) <-> has_greatest_total totals s.
Proof. apply top_sites_In. Qed.

Lemma mark_greatest (totals : list (string * Z)) (s : string) :
  (has_greatest_total totals s -> mark (top_sites totals) s = (s ++ " 🚨")%string)
  /\ (~ has_greatest_total totals s -> mark (top_sites totals) s = s).
Proof.
  split; intros Hg.
  - apply mark_top, top_sites_greatest. exact Hg.
  - apply mark_other. rewrite top_sites_greatest. exact Hg.
Qed.



(** C8.  A run leaves the loaded table as it was: from any store in which
    [df0] names the loaded rows the run ends, [df0] still names the same rows
    afterwards, every object that existed before the run is unchanged, and
    the run has only added objects.  This covers the run without selection,
    in which the filtered table is the loaded table itself. *)
Theorem run_keeps_source_records (w : world) (df0 : ref) (rows : list alarm)
        (selection : list string) :
  heap w !! df0 = Some (Alarms rows) ->
  exists w',
    pipeline df0 selection w = Some (tt, w')
    /\ heap w' !! df0 = Some (Alarms rows)
    /\ (forall r f, heap w !! r = Some f -> heap w' !! r = Some f)
    /\ (exists new, heap w' = heap w ++ new).
Proof.
  intros Hdf0.
  destruct (pipeline_spec df0 selection rows w Hdf0) as [new Hrun].
  eexists. split; [exact Hrun|]. cbn [heap].
  split; [apply lookup_old; exact Hdf0|].
  split; [intros r f Hr; apply lookup_old; exact Hr|].
  exists new. reflexivity.
Qed.







(** * Further properties of the script *)

(** ** The site totals (lines 48-53) *)

Lemma keyed_site_names (df : list alarm) (s : string) :
  In s (List.map fst (keyed (List.map site_key df)))
  <-> exists r, In r df /\ neName r = Some s.
Proof.
  rewrite keyed_site_key, List.map_map. simpl. rewrite List.in_map_iff. split.
  - intros [r [Hs Hr]]. apply List.filter_In in Hr. destruct Hr as [Hr Hsite].
    exists r. split; [exact Hr|]. unfold has_site in Hsite.
    destruct (neName r); [congruence | discriminate].
  - intros [r [Hr Hn]]. exists r. rewrite Hn. split; [reflexivity|].
    apply List.filter_In. split; [exact Hr|]. unfold has_site. rewrite Hn.
    reflexivity.
Qed.

Lemma site_criticals_sites (df : list alarm) (s : string) :
  In s (List.map fst (site_criticals df))
  <-> exists r, In r df /\ neName r = Some s.
Proof.
  rewrite <- keyed_site_names, <- groupby_sum_keys. unfold site_criticals.
  split; apply Permutation_in, Permutation_map.
  - apply sort_values_desc_perm.
  - apply Permutation_sym, sort_values_desc_perm.
Qed.

Lemma site_criticals_one_row_per_site_aux (df : list alarm) :
  List.NoDup (List.map fst (site_criticals df)).
Proof.
  unfold site_criticals.
  eapply Permutation_NoDup.
  - apply Permutation_map, Permutation_sym, sort_values_desc_perm.
  - apply ascending_NoDup, groupby_sum_ascending.
Qed.

Lemma sorted_nth_error {A : Type} (R : A -> A -> Prop) (l : list A)
      (i j : nat) (a b : A) :
  StronglySorted R l -> (i < j)%nat ->
  nth_error l i = Some a -> nth_error l j = Some b -> R a b.
Proof.
  intros Hs. revert i j. induction Hs as [|x l Hs IH Hall]; intros i j Hij Hi Hj.
  - destruct i; discriminate.
  - destruct j as [|j]; [lia|]. simpl in Hj. destruct i as [|i]; simpl in Hi.
    + inversion Hi; subst. rewrite List.Forall_forall in Hall. apply Hall.
      eapply List.nth_error_In. exact Hj.
    + apply (IH i j); [lia | exact Hi | exact Hj].
Qed.

(** X1.  The site totals come out in descending order of total: no row has a
    greater total than a row above it. *)
Theorem site_criticals_descending (df : list alarm) :
  totals_descending (site_criticals df)
  /\ forall i j a b,
       (i < j)%nat ->
       nth_error (site_criticals df) i = Some a ->
       nth_error (site_criticals df) j = Some b ->
       snd b <= snd a.
Proof.
  assert (Hs : totals_descending (site_criticals df)).
  { unfold site_criticals. apply sort_values_desc_descending. }
  split; [exact Hs|].
  intros i j a b Hij Hi Hj.
  exact (sorted_nth_error _ _ _ _ _ _ Hs Hij Hi Hj).
Qed.

(** X2.  The site totals have one row per site: no site occurs twice, and
    the sites listed are exactly the site names that occur in the table, so
    the "Number of Sites" metric counts the distinct site names. *)
Theorem site_criticals_one_row_per_site (df : list alarm) :
  List.NoDup (List.map fst (site_criticals df))
  /\ (forall s, In s (List.map fst (site_criticals df))
                <-> exists r, In r df /\ neName r = Some s).
Proof.
  split; [apply site_criticals_one_row_per_site_aux | apply site_criticals_sites].
Qed.

(** X3.  A row (site, total) is in the site totals exactly when the table
    has a row of that site and the total is the 64-bit sum of the occurrence
    counts of the rows of that site, which is their sum whenever that fits
    in 64 bits. *)
Theorem site_criticals_rows (df : list alarm) (s : string) (t : Z) :
  (In (s, t) (site_criticals df)
   <-> List.filter (of_site s) df <> []
       /\ t = wrap64 (total_occurrences (List.filter (of_site s) df)))
  /\ (- 2 ^ 63 <= total_occurrences (List.filter (of_site s) df) <= 2 ^ 63 - 1 ->
      In (s, t) (site_criticals df)
      <-> List.filter (of_site s) df <> []
          /\ t = total_occurrences (List.filter (of_site s) df)).
Proof.
  assert (Hiff : In (s, t) (site_criticals df)
                 <-> List.filter (of_site s) df <> []
                     /\ t = wrap64 (total_occurrences (List.filter (of_site s) df))).
  { split.
    - intros Hin. apply site_criticals_row_total in Hin. taut.
    - intros [Hne ->].
      assert (Hs : In s (List.map fst (site_criticals df))).
      { apply site_criticals_sites.
        destruct (List.filter (of_site s) df) as [|r l] eqn:Hf; [congruence|].
        assert (Hr : In r (List.filter (of_site s) df))
          by (rewrite Hf; left; reflexivity).
        apply List.filter_In in Hr. destruct Hr as [Hr Hsite]. exists r.
        split; [exact Hr|]. unfold of_site in Hsite.
        destruct (neName r) as [s'|]; [|discriminate].
        apply String.eqb_eq in Hsite. congruence. }
      apply List.in_map_iff in Hs. destruct Hs as [[s' t'] [Heq Hin]].
      simpl in Heq. subst s'.
      destruct (site_criticals_row_total _ _ _ Hin) as [-> _]. exact Hin. }
  split; [exact Hiff|].
  intros Hfit. rewrite Hiff, (wrap64_small _ Hfit). reflexivity.
Qed.

(** ** The page (lines 54-95) *)

Lemma descending_head (x : string * Z) (l : list (string * Z)) :
  totals_descending (x :: l) -> forall y, In y (x :: l) -> snd y <= snd x.
Proof.
  unfold totals_descending. intros Hs y [<-|Hy]; [lia|].
  inversion Hs as [|? ? _ Hall]; subst.
  rewrite List.Forall_forall in Hall. apply Hall. exact Hy.
Qed.

(** X4.  The call-outs name ranked sites.  The "most" call-out, shown
    exactly when there is at least one site, names the first row of the site
    totals: a top site, whose total no site exceeds.  The "next" call-out,
    shown exactly when there are at least two sites, names the second row: a
    different site, whose total does not exceed that of the first. *)
Theorem callouts_name_ranked_sites (rows : list alarm) (selection : list string) :
  exists w,
    run rows selection = Some w
    /\ (forall site total label,
          In (Success site total label) (page w) ->
          nth_error (site_criticals (apply_filter selection rows)) 0
          = Some (site, total)
          /\ In site (top_sites (site_criticals (apply_filter selection rows)))
          /\ forall s' t',
               In (s', t') (site_criticals (apply_filter selection rows)) ->
               t' <= total)
    /\ (forall site total label,
          In (Info site total label) (page w) ->
          nth_error (site_criticals (apply_filter selection rows)) 1
          = Some (site, total)
          /\ exists top top_total,
               In (Success top top_total label) (page w)
               /\ total <= top_total /\ site <> top)
    /\ existsb is_success (page w)
       = (1 <=? length (site_criticals (apply_filter selection rows)))%nat
    /\ existsb is_info (page w)
       = (2 <=? length (site_criticals (apply_filter selection rows)))%nat.
Proof.
  destruct (pipeline_spec 0%nat selection rows
              {| heap := [Alarms rows]; page := [] |} eq_refl)
    as [new Hrun].
  eexists. split; [unfold run; rewrite Hrun; reflexivity|].
  cbn [page].
  pose proof (sort_values_desc_descending
                (tie_rank (groupby_sum (List.map site_key (apply_filter selection rows))))
                (groupby_sum (List.map site_key (apply_filter selection rows))))
    as Hdesc.
  fold (site_criticals (apply_filter selection rows)) in Hdesc.
  pose proof (site_criticals_one_row_per_site_aux (apply_filter selection rows))
    as Hnodup.
  destruct (matrix (apply_filter selection rows)) as [p|];
  destruct (site_criticals (apply_filter selection rows)) as [|[s1 t1] [|[s2 t2] rest]].
  - split; [|split; [|split; reflexivity]];
      intros site total label Hin; simpl in Hin;
      repeat (destruct Hin as [Hin|Hin]; [discriminate|]); destruct Hin.
  - assert (Hub : forall s' t', In (s', t') [(s1, t1)] -> t' <= t1).
    { intros s' t' Hin'. apply (descending_head _ _ Hdesc (s', t') Hin'). }
    split; [|split; [|split; reflexivity]];
      intros site total label Hin; simpl in Hin;
      repeat (destruct Hin as [Hin|Hin];
              [try discriminate; inversion Hin; subst|]); try destruct Hin.
    split; [reflexivity|]. split; [|exact Hub].
    apply (top_sites_all_maxima [(site, total)] site total); [left; reflexivity|].
    exact Hub.
  - assert (Hub : forall s' t', In (s', t') ((s1, t1) :: (s2, t2) :: rest) -> t' <= t1).
    { intros s' t' Hin'. apply (descending_head _ _ Hdesc (s', t') Hin'). }
    split; [|split; [|split; reflexivity]];
      intros site total label Hin; simpl in Hin;
      repeat (destruct Hin as [Hin|Hin];
              [try discriminate; inversion Hin; subst|]); try destruct Hin.
    + split; [reflexivity|]. split; [|exact Hub].
      apply (top_sites_all_maxima _ site total); [left; reflexivity | exact Hub].
    + split; [reflexivity|]. exists s1, t1.
      split; [simpl; taut|].
      split; [apply (Hub site); right; left; reflexivity|].
      intros ->. simpl in Hnodup. inversion Hnodup as [|? ? Hnotin _]; subst.
      apply Hnotin. left. reflexivity.
  - split; [|split; [|split; reflexivity]];
      intros site total label Hin; simpl in Hin;
      repeat (destruct Hin as [Hin|Hin]; [discriminate|]); destruct Hin.
  - assert (Hub : forall s' t', In (s', t') [(s1, t1)] -> t' <= t1).
    { intros s' t' Hin'. apply (descending_head _ _ Hdesc (s', t') Hin'). }
    split; [|split; [|split; reflexivity]];
      intros site total label Hin; simpl in Hin;
      repeat (destruct Hin as [Hin|Hin];
              [try discriminate; inversion Hin; subst|]); try destruct Hin.
    split; [reflexivity|]. split; [|exact Hub].
    apply (top_sites_all_maxima [(site, total)] site total); [left; reflexivity|].
    exact Hub.
  - assert (Hub : forall s' t', In (s', t') ((s1, t1) :: (s2, t2) :: rest) -> t' <= t1).
    { intros s' t' Hin'. apply (descending_head _ _ Hdesc (s', t') Hin'). }
    split; [|split; [|split; reflexivity]];
      intros site total label Hin; simpl in Hin;
      repeat (destruct Hin as [Hin|Hin];
              [try discriminate; inversion Hin; subst|]); try destruct Hin.
    + split; [reflexivity|]. split; [|exact Hub].
      apply (top_sites_all_maxima _ site total); [left; reflexivity | exact Hub].
    + split; [reflexivity|]. exists s1, t1.
      split; [simpl; taut|].
      split; [apply (Hub site); right; left; reflexivity|].
      intros ->. simpl in Hnodup. inversion Hnodup as [|? ? Hnotin _]; subst.
      apply Hnotin. left. reflexivity.
Qed.

(** X5.  On every execution on a loaded table the page has either the
    record table or the "no alarms" notice, never both, unless line 39 has
    raised, in which case it has neither and shows the exception alone.  The
    notice is shown exactly when no filtered row has a site name, also when
    there are filtered rows (all of them without a site name). *)
Theorem notice_iff_no_named_row (t : loaded) (selection : list string) :
  exists w,
    script t selection = Some w
    /\ (loaded_str t = true \/ selection = [] ->
        existsb is_notice (page w)
        = forallb (fun r => negb (has_site r))
            (apply_filter selection (loaded_rows t))
        /\ existsb is_table (page w) = negb (existsb is_notice (page w)))
    /\ (loaded_str t = false -> selection <> [] ->
        page w = [Uncaught AttributeError]
        /\ existsb is_notice (page w) = false
        /\ existsb is_table (page w) = false).
Proof.
  destruct (pipeline_spec 0%nat selection (loaded_rows t)
              {| heap := [Alarms (loaded_rows t)]; page := [] |} eq_refl)
    as [new Hrun].
  set (rows := loaded_rows t) in *.
  assert (Hok : exists w,
             run rows selection = Some w
             /\ existsb is_notice (page w)
                = forallb (fun r => negb (has_site r)) (apply_filter selection rows)
             /\ existsb is_table (page w) = negb (existsb is_notice (page w))).
  { eexists. split; [unfold run; rewrite Hrun; reflexivity|].
    cbn [page].
    destruct (matrix (apply_filter selection rows)) as [p|];
      destruct (site_criticals (apply_filter selection rows)) as [|t0 [|n rest]] eqn:Htot;
      try (apply site_criticals_nil in Htot; apply filter_nil_forallb in Htot;
           rewrite Htot; split; reflexivity);
      (destruct (forallb _ _) eqn:Hall; [|split; reflexivity];
       apply filter_nil_forallb, site_criticals_nil in Hall; congruence). }
  destruct Hok as [w [Hw [Hn Ht]]].
  unfold script. destruct selection as [|x sel].
  - exists w. split; [exact Hw|]. split; [auto|]. intros _ Hne. congruence.
  - destruct (loaded_str t) eqn:Hstr.
    + exists w. split; [exact Hw|]. split; [auto|]. discriminate.
    + eexists. split; [reflexivity|]. split.
      * intros [Hs|Hs]; discriminate.
      * intros _ _. repeat split; reflexivity.
Qed.

(** ** The loader (lines 11-19) *)

(** X6.  Every timestamp the loader produces fits the 64-bit nanosecond
    range: each loaded row has a first-detection time within
    +-9223372036854 ms, its last-detection time is within that range when it
    has one, and it has none when the sheet has no such column. *)
Theorem load_data_timestamps_in_range (sh : sheet) (df : list alarm) :
  load_data sh = Some df ->
  Forall
    (fun r =>
       (exists t, firstTimeDetected r = Some t
                  /\ -9223372036854 <= t <= 9223372036854)
       /\ (forall t, lastTimeDetected r = Some t
                     -> -9223372036854 <= t <= 9223372036854)
       /\ (has_lastTimeDetected sh = false -> lastTimeDetected r = None))
    df.
Proof.
  intros Hload. apply List.Forall_forall. intros r Hr.
  destruct (load_data_rows sh df r Hload Hr) as [raw [_ [-> Hvalid]]].
  unfold valid_first in Hvalid. unfold converted_row, cell_time.
  cbn [convert_row firstTimeDetected lastTimeDetected].
  split; [|split].
  - destruct (to_datetime (raw_firstTimeDetected raw)) as [t| |] eqn:Ht;
      try discriminate.
    exists t. split; [reflexivity|].
    apply (cell_time_bounds (raw_firstTimeDetected raw)).
    unfold cell_time. rewrite Ht. reflexivity.
  - intros t. destruct (has_lastTimeDetected sh); [|discriminate].
    apply (cell_time_bounds (raw_lastTimeDetected raw)).
  - intros ->. reflexivity.
Qed.

(** X7.  A load that does not raise touches only the two timestamp columns:
    site names, severities and occurrence counts of the rows it keeps are
    those of the sheet, in order. *)
Theorem load_data_keeps_other_columns (sh : sheet) (df : list alarm) :
  load_data sh = Some df ->
  List.map (fun r => (neName r, severity r, numberOfOccurrences r)) df
  = List.map (fun r => (raw_neName r, raw_severity r, raw_numberOfOccurrences r))
      (List.filter valid_first (sheet_rows sh)).
Proof.
  rewrite load_data_spec. destruct (load_raises sh); [discriminate|].
  intros Heq. inversion Heq; subst. rewrite List.map_map. reflexivity.
Qed.

(** ** The filter and the label (lines 37-45) *)

Lemma filter_sublist {A : Type} (p : A -> bool) (l : list A) :
  sublist (List.filter p l) l.
Proof.
  induction l as [|x l IH]; simpl; [constructor|].
  destruct (p x); constructor; exact IH.
Qed.

Lemma filter_filter_same {A : Type} (p : A -> bool) (l : list A) :
  List.filter p (List.filter p l) = List.filter p l.
Proof.
  induction l as [|x l IH]; simpl; [reflexivity|].
  destruct (p x) eqn:Hx; simpl; [rewrite Hx, IH; reflexivity | exact IH].
Qed.

Lemma filter_filter_comm {A : Type} (p q : A -> bool) (l : list A) :
  List.filter p (List.filter q l) = List.filter q (List.filter p l).
Proof.
  induction l as [|x l IH]; simpl; [reflexivity|].
  destruct (p x) eqn:Hp, (q x) eqn:Hq; simpl; rewrite ?Hp, ?Hq, IH; reflexivity.
Qed.

(** X9.  Filtering only removes rows: the result keeps the order of the
    table.  Filtering twice by the same selection is filtering once, two
    filters commute, and a selection made of two non-empty parts keeps the
    rows that either part keeps. *)
Theorem apply_filter_laws (selection other : list string) (df : list alarm) :
  sublist (apply_filter selection df) df
  /\ apply_filter selection (apply_filter selection df) = apply_filter selection df
  /\ apply_filter selection (apply_filter other df)
     = apply_filter other (apply_filter selection df)
  /\ (selection <> [] -> other <> [] ->
      forall r, In r (apply_filter (selection ++ other) df)
                <-> In r (apply_filter selection df) \/ In r (apply_filter other df)).
Proof.
  split; [|split; [|split]].
  - destruct selection; simpl; [reflexivity | apply filter_sublist].
  - destruct selection; simpl; [reflexivity | apply filter_filter_same].
  - destruct selection, other; simpl; try reflexivity. apply filter_filter_comm.
  - intros Hs Ho r. rewrite !apply_filter_In.
    assert (Hm : matches (selection ++ other) r
                 = matches selection r || matches other r).
    { unfold matches, isin. destruct (severity r); [apply List.existsb_app|].
      reflexivity. }
    rewrite Hm, orb_true_iff.
    destruct selection; [congruence|]. destruct other; [congruence|].
    split.
    + intros [Hr [Hnil|[H|H]]]; [discriminate| |]; auto.
    + intros [[Hr [Hnil|H]]|[Hr [Hnil|H]]]; try discriminate; auto.
Qed.

(** X10.  With a non-empty selection made of offered options, a row whose
    severity is no text, or text that in lower case is none of critical,
    major and minor, is never in the filtered table. *)
Theorem unknown_severity_hidden (selection : list string) (df : list alarm)
        (r : alarm) :
  offered selection = true ->
  selection <> [] ->
  matches severity_options r = false ->
  ~ In r (apply_filter selection df).
Proof.
  intros Hoff Hne Hunk Hin. apply apply_filter_In in Hin.
  destruct Hin as [_ [Hnil|Hsel]]; [congruence|].
  apply matches_In in Hsel. destruct Hsel as [s [Hs Hsel]].
  unfold offered in Hoff. rewrite List.forallb_forall in Hoff.
  apply Hoff in Hsel. unfold matches in Hunk. rewrite Hs in Hunk. congruence.
Qed.

Lemma unknown_severity_hidden_witness :
  ~ In {| neName := Some "A"; severity := Some "Warning"; numberOfOccurrences := 1;
          firstTimeDetected := Some 0; lastTimeDetected := None |}
       (apply_filter ["critical"; "minor"]
          [ {| neName := Some "A"; severity := Some "Warning";
               numberOfOccurrences := 1;
               firstTimeDetected := Some 0; lastTimeDetected := None |} ]).
Proof.
  apply unknown_severity_hidden; [reflexivity | discriminate | reflexivity].
Defined.

Lemma lower_ascii_cases (c : ascii) :
  lower_ascii (lower_ascii c) = lower_ascii c
  /\ lower_ascii (upper_ascii c) = lower_ascii c.
Proof. destruct c as [[] [] [] [] [] [] [] []]; split; reflexivity. Qed.

Lemma lower_idem (s : string) : lower (lower s) = lower s.
Proof.
  induction s as [|c s IH]; simpl; [reflexivity|].
  rewrite IH. f_equal. destruct (lower_ascii_cases c) as [H1 _]. exact H1.
Qed.

Lemma lower_title_from (b : bool) (s : string) : lower (title_from b s) = lower s.
Proof.
  revert b. induction s as [|c s IH]; intros b; simpl; [reflexivity|].
  destruct (lower_ascii_cases c) as [H1 H2].
  destruct (is_upper c || is_lower c) eqn:Hc; simpl; rewrite IH; f_equal.
  destruct b; assumption.
Qed.

Lemma length_title_from (b : bool) (s : string) :
  String.length (title_from b s) = String.length s.
Proof.
  revert b. induction s as [|c s IH]; intros b; simpl; [reflexivity|].
  destruct (is_upper c || is_lower c); simpl; rewrite IH; reflexivity.
Qed.

Lemma lower_append (a b : string) : lower (a ++ b) = (lower a ++ lower b)%string.
Proof. induction a as [|c a IH]; simpl; [reflexivity | rewrite IH; reflexivity]. Qed.

Lemma lower_concat_offered (selection : list string) :
  offered selection = true ->
  lower (String.concat " / " selection) = String.concat " / " selection.
Proof.
  unfold offered. induction selection as [|x sel IH]; [reflexivity|].
  cbn [forallb]. intros Hall. apply andb_true_iff in Hall.
  destruct Hall as [Hx Hsel].
  assert (Hlx : lower x = x).
  { apply isin_In in Hx. simpl in Hx.
    destruct Hx as [<-|[<-|[<-|[]]]]; reflexivity. }
  destruct sel as [|y sel']; [exact Hlx|].
  change (String.concat " / " (x :: y :: sel'))
    with (x ++ " / " ++ String.concat " / " (y :: sel'))%string.
  rewrite !lower_append, Hlx, (IH Hsel). reflexivity.
Qed.

(** X11.  The label shows the selection and changes letter case only: for a
    non-empty selection of offered options the label has the length of the
    selection joined by " / " and lower-cases to it. *)
Theorem severity_label_is_selection (selection : list string) :
  offered selection = true ->
  selection <> [] ->
  lower (severity_label selection) = String.concat " / " selection
  /\ String.length (severity_label selection)
     = String.length (String.concat " / " selection).
Proof.
  intros Hoff Hne. destruct selection as [|x sel]; [congruence|].
  unfold severity_label, title.
  rewrite lower_title_from, length_title_from, (lower_concat_offered _ Hoff).
  split; reflexivity.
Qed.

Lemma severity_label_is_selection_witness :
  lower (severity_label ["major"; "critical"]) = String.concat " / " ["major"; "critical"]
  /\ String.length (severity_label ["major"; "critical"])
     = String.length (String.concat " / " ["major"; "critical"]).
Proof.
  apply severity_label_is_selection; [reflexivity | discriminate].
Defined.

(** ** The month x site matrix (lines 97-106) *)

(** X12.  Whenever line 98 yields it, the matrix is rectangular and its axes
    are in order: it has one row of cells per month label and one cell per
    site in every row; the month labels are strictly ascending and so are
    the site labels, so no label occurs twice. *)
Theorem pivot_table_rectangular (df : list alarm) (p : pivot) :
  matrix df = Some p ->
  length (pivot_values p) = length (pivot_index p)
  /\ Forall (fun row => length row = length (pivot_columns p)) (pivot_values p)
  /\ labels_ascending (pivot_index p)
  /\ labels_ascending (pivot_columns p)
  /\ List.NoDup (pivot_index p)
  /\ List.NoDup (pivot_columns p).
Proof.
  intros Hp. destruct (matrix_shape df p Hp) as [_ [Hi [Hc Hv]]].
  assert (Hai : labels_ascending (pivot_index p))
    by (rewrite Hi; apply axis_labels_ascending).
  assert (Hac : labels_ascending (pivot_columns p))
    by (rewrite Hc; apply axis_labels_ascending).
  split.
  { rewrite Hv, Hi. unfold promote, raw_values. rewrite !length_map. reflexivity. }
  split.
  { rewrite Hv, Hc. unfold promote, raw_values. rewrite !List.map_map.
    apply List.Forall_forall. intros row Hrow.
    apply List.in_map_iff in Hrow. destruct Hrow as [m [<- _]].
    rewrite !length_map. reflexivity. }
  repeat split; auto using labels_ascending_NoDup.
Qed.

Lemma pivot_table_rectangular_witness :
  length [[Some 105; Some 0]; [Some 0; Some 5]] = length ["2024-01"; "2024-02"]
  /\ Forall (fun row : list (option Z) => length row = length ["A"; "B"])
       [[Some 105; Some 0]; [Some 0; Some 5]]
  /\ labels_ascending ["2024-01"; "2024-02"]
  /\ labels_ascending ["A"; "B"]
  /\ List.NoDup ["2024-01"; "2024-02"]
  /\ List.NoDup ["A"; "B"].
Proof.
  apply (pivot_table_rectangular scenario
           {| pivot_index := ["2024-01"; "2024-02"];
              pivot_columns := ["A"; "B"];
              pivot_values := [[Some 105; Some 0]; [Some 0; Some 5]] |}).
  reflexivity.
Defined.

(** X13.  The axes of the matrix hold what the filtered rows hold: a site is
    a column exactly when some row with a first-detection time has that site
    name, and a label is a row exactly when it is the month label of some
    row that has a site name. *)
Theorem pivot_table_axes (df : list alarm) (p : pivot) :
  matrix df = Some p ->
  (forall s, In s (pivot_columns p)
             <-> exists r t, In r df /\ firstTimeDetected r = Some t
                             /\ neName r = Some s)
  /\ (forall m, In m (pivot_index p)
                <-> exists r t s, In r df /\ firstTimeDetected r = Some t
                                  /\ neName r = Some s
                                  /\ strftime_Ym (month_bin t) = m).
Proof.
  intros Hp. destruct (matrix_shape df p Hp) as [_ [Hi [Hc _]]].
  rewrite Hi, Hc. split.
  - intros s. apply columns_of_In.
  - intros m. apply index_of_In.
Qed.

Lemma pivot_table_axes_witness :
  (forall s, In s ["A"; "B"]
             <-> exists r t, In r scenario /\ firstTimeDetected r = Some t
                             /\ neName r = Some s)
  /\ (forall m, In m ["2024-01"; "2024-02"]
                <-> exists r t s, In r scenario /\ firstTimeDetected r = Some t
                                  /\ neName r = Some s
                                  /\ strftime_Ym (month_bin t) = m).
Proof.
  apply (pivot_table_axes scenario
           {| pivot_index := ["2024-01"; "2024-02"];
              pivot_columns := ["A"; "B"];
              pivot_values := [[Some 105; Some 0]; [Some 0; Some 5]] |}).
  reflexivity.
Defined.

Lemma entry_value_month_site (df : list alarm) (b : Z) (s : string) :
  entry_value (strftime_Ym b) s (month_site_totals df)
  = match List.filter (in_cell b s) df with
    | [] => None
    | l => Some (wrap64 (total_occurrences l))
    end.
Proof.
  unfold month_site_totals. rewrite entry_value_lookup. apply month_site_lookup.
Qed.

Lemma as_float64_small (z : Z) : - 2 ^ 53 < z < 2 ^ 53 -> as_float64 z = z.
Proof.
  intros Hz. unfold as_float64.
  replace (Z.abs z <? 2 ^ 53) with true; [reflexivity|].
  symmetry. apply Z.ltb_lt. lia.
Qed.

Lemma as_stored_small (float : bool) (z : Z) :
  - 2 ^ 53 < z < 2 ^ 53 -> as_stored float (Some z) = Some z.
Proof.
  intros Hz. destruct float; [|reflexivity]. simpl.
  rewrite (as_float64_small _ Hz). reflexivity.
Qed.

(** X14.  Whenever line 98 yields the matrix, its cell at the row of a
    month's label and the column of a site holds 0 when no filtered row has
    that site and a first detection in that month, and otherwise the 64-bit
    sum of the occurrence counts of those rows, rounded to the nearest
    double when the matrix is one of doubles (some cell of it had no row).
    When the sum of those counts is below 2^53 in size the cell holds that
    sum. *)
Theorem pivot_table_cell_total (df : list alarm) (p : pivot) :
  matrix df = Some p ->
  forall i j b s,
    nth_error (pivot_index p) i = Some (strftime_Ym b) ->
    nth_error (pivot_columns p) j = Some s ->
    cell_at p i j
    = Some (Some match List.filter (in_cell b s) df with
                 | [] => 0
                 | l =>
                     if matrix_is_float df
                     then as_float64 (wrap64 (total_occurrences l))
                     else wrap64 (total_occurrences l)
                 end)
    /\ (- 2 ^ 53 < total_occurrences (List.filter (in_cell b s) df) < 2 ^ 53 ->
        cell_at p i j
        = Some (Some (total_occurrences (List.filter (in_cell b s) df)))).
Proof.
  intros Hp i j b s Hi Hj.
  rewrite (matrix_cell df p i j _ s Hp Hi Hj), entry_value_month_site.
  destruct (List.filter (in_cell b s) df) as [|r l] eqn:Hf.
  - rewrite as_stored_none. split; reflexivity.
  - split.
    + destruct (matrix_is_float df); reflexivity.
    + intros Hsmall.
      rewrite wrap64_small by (unfold int64_min, int64_max; lia).
      rewrite (as_stored_small _ _ Hsmall). reflexivity.
Qed.

Lemma pivot_table_cell_total_witness :
  cell_at {| pivot_index := ["2024-01"; "2024-02"];
             pivot_columns := ["A"; "B"];
             pivot_values := [[Some 105; Some 0]; [Some 0; Some 5]] |} 0 0
  = Some (Some match List.filter (in_cell 648 "A") scenario with
               | [] => 0
               | l =>
                   if matrix_is_float scenario
                   then as_float64 (wrap64 (total_occurrences l))
                   else wrap64 (total_occurrences l)
               end)
  /\ (- 2 ^ 53 < total_occurrences (List.filter (in_cell 648 "A") scenario) < 2 ^ 53 ->
      cell_at {| pivot_index := ["2024-01"; "2024-02"];
                 pivot_columns := ["A"; "B"];
                 pivot_values := [[Some 105; Some 0]; [Some 0; Some 5]] |} 0 0
      = Some (Some (total_occurrences (List.filter (in_cell 648 "A") scenario)))).
Proof.
  apply (pivot_table_cell_total scenario
           {| pivot_index := ["2024-01"; "2024-02"];
              pivot_columns := ["A"; "B"];
              pivot_values := [[Some 105; Some 0]; [Some 0; Some 5]] |}
           eq_refl 0%nat 0%nat 648 "A"); reflexivity.
Defined.

(** Sums of counts that are not negative and stay within 64 bits are
    exact. *)
Lemma zsum_nonneg (l : list Z) : Forall (fun x => 0 <= x) l -> 0 <= zsum l.
Proof. unfold zsum. induction 1; simpl; lia. Qed.

Lemma zsum_ge_member (l : list Z) (x : Z) :
  Forall (fun y => 0 <= y) l -> In x l -> x <= zsum l.
Proof.
  intros Hall. induction Hall as [|y l Hy Hall IH]; intros Hin; [destruct Hin|].
  pose proof (zsum_nonneg l Hall) as Hl. unfold zsum in *. simpl.
  destruct Hin as [->|Hin]; [lia|]. specialize (IH Hin). lia.
Qed.

Section ExactSums.

Context {K : Type} `{KeyOrder K}.

Lemma group_add_exact (k : K) (v : Z) (groups : list (K * Z)) :
  Forall (fun x => 0 <= x) (List.map snd groups) ->
  0 <= v ->
  zsum (List.map snd groups) + v <= int64_max ->
  zsum (List.map snd (group_add k v groups)) = zsum (List.map snd groups) + v
  /\ Forall (fun x => 0 <= x) (List.map snd (group_add k v groups)).
Proof.
  induction groups as [|[k' v'] rest IH]; intros Hall Hv Hfit.
  - cbn [group_add List.map snd]. cbn [List.map] in Hfit.
    rewrite wrap64_small by (unfold int64_min, zsum in *; simpl in Hfit; lia).
    split; [unfold zsum; simpl; lia|]. constructor; [exact Hv | constructor].
  - cbn [List.map snd] in Hall, Hfit. inversion Hall as [|? ? Hv' Hrest]; subst.
    pose proof (zsum_nonneg _ Hrest) as Hsum.
    unfold zsum in Hfit, Hsum |- *. cbn [fold_right] in Hfit.
    cbn [group_add]. destruct (kcmp k k').
    + cbn [List.map snd fold_right].
      rewrite wrap64_small by (unfold int64_min; lia).
      split; [lia|]. constructor; [lia | exact Hrest].
    + cbn [List.map snd fold_right].
      rewrite wrap64_small by (unfold int64_min; lia).
      split; [lia|]. constructor; [exact Hv | exact Hall].
    + cbn [List.map snd fold_right].
      destruct (IH Hrest Hv) as [Heq Hnn]; [unfold zsum; lia|].
      unfold zsum in Heq. rewrite Heq.
      split; [lia|]. constructor; [exact Hv' | exact Hnn].
Qed.

Lemma fold_add_row_exact (rows : list (option K * Z)) (groups : list (K * Z)) :
  Forall (fun x => 0 <= x) (List.map snd groups) ->
  Forall (fun x => 0 <= x) (List.map snd (keyed rows)) ->
  zsum (List.map snd groups) + zsum (List.map snd (keyed rows)) <= int64_max ->
  zsum (List.map snd (fold_left add_row rows groups))
  = zsum (List.map snd groups) + zsum (List.map snd (keyed rows))
  /\ Forall (fun x => 0 <= x) (List.map snd (fold_left add_row rows groups)).
Proof.
  revert groups. induction rows as [|[[k|] v] rows IH]; intros groups Hg Hr Hfit.
  - cbn [keyed List.map fold_left]. unfold zsum at 3. simpl.
    split; [lia | exact Hg].
  - cbn [keyed List.map snd fold_left] in *.
    inversion Hr as [|? ? Hv Hrest]; subst.
    pose proof (zsum_nonneg _ Hrest) as Hsum.
    assert (Hcons : zsum (v :: List.map snd (keyed rows))
                    = v + zsum (List.map snd (keyed rows))) by reflexivity.
    rewrite Hcons in Hfit |- *.
    unfold add_row at 2 4. cbn [fst snd].
    destruct (group_add_exact k v groups Hg Hv) as [Heq Hnn]; [lia|].
    destruct (IH (group_add k v groups) Hnn Hrest) as [Heq' Hnn'];
      [rewrite Heq; lia|].
    rewrite Heq', Heq. split; [lia | exact Hnn'].
  - cbn [keyed List.map snd fold_left] in *. apply IH; assumption.
Qed.

Lemma groupby_sum_exact (rows : list (option K * Z)) :
  Forall (fun x => 0 <= x) (List.map snd (keyed rows)) ->
  zsum (List.map snd (keyed rows)) <= int64_max ->
  zsum (List.map snd (groupby_sum rows)) = zsum (List.map snd (keyed rows))
  /\ Forall (fun x => 0 <= x) (List.map snd (groupby_sum rows)).
Proof.
  intros Hr Hfit. unfold groupby_sum.
  destruct (fold_add_row_exact rows [] (List.Forall_nil _) Hr) as [Heq Hnn];
    [unfold zsum at 1; simpl; lia|].
  split; [rewrite Heq; unfold zsum at 1; simpl; lia | exact Hnn].
Qed.

End ExactSums.

(** Sums over the axes. *)
Lemma zsum_map_ext {A : Type} (f g : A -> Z) (l : list A) :
  (forall x, In x l -> f x = g x) -> zsum (List.map f l) = zsum (List.map g l).
Proof.
  intros Hext. f_equal. apply List.map_ext_in. exact Hext.
Qed.

Lemma zsum_map_add {A : Type} (f g : A -> Z) (l : list A) :
  zsum (List.map (fun x => f x + g x) l)
  = zsum (List.map f l) + zsum (List.map g l).
Proof.
  unfold zsum. induction l as [|x l IH]; simpl; [reflexivity|]. lia.
Qed.

Lemma zsum_map_zero {A : Type} (f : A -> Z) (l : list A) :
  (forall x, In x l -> f x = 0) -> zsum (List.map f l) = 0.
Proof.
  unfold zsum. induction l as [|x l IH]; intros Hz; simpl; [reflexivity|].
  rewrite (Hz x) by (left; reflexivity).
  rewrite IH; [reflexivity|]. intros y Hy. apply Hz. right. exact Hy.
Qed.

(** A value placed at one label of an axis without repetition is counted
    once. *)
Lemma zsum_at_label (l : list string) (x0 : string) (a : Z) :
  List.NoDup l -> In x0 l ->
  zsum (List.map (fun x => if String.eqb x x0 then a else 0) l) = a.
Proof.
  induction 1 as [|y l Hny Hnd IH]; intros Hin; [destruct Hin|].
  unfold zsum in *. cbn [List.map fold_right].
  destruct (String.eqb y x0) eqn:Hy.
  - apply String.eqb_eq in Hy. subst y.
    fold (zsum (List.map (fun x => if String.eqb x x0 then a else 0) l)).
    rewrite zsum_map_zero; [lia|].
    intros x Hx. destruct (String.eqb x x0) eqn:Hxx; [|reflexivity].
    apply String.eqb_eq in Hxx. subst. contradiction.
  - destruct Hin as [->|Hin]; [rewrite String.eqb_refl in Hy; discriminate|].
    rewrite (IH Hin). reflexivity.
Qed.

Lemma entry_value_cons (m s : string) (e : string * string * Z)
      (entries : list (string * string * Z)) :
  entry_value m s (e :: entries)
  = if same_entry m s e then Some (snd e) else entry_value m s entries.
Proof.
  unfold entry_value. cbn [List.find]. destruct (same_entry m s e); reflexivity.
Qed.

(** Summing a matrix cell by cell gives the sum of the entries it was made
    from, when no entry repeats a (month, site) pair and the axes list every
    month and every site once. *)
Lemma matrix_cells_total (entries : list (string * string * Z))
      (idx cols : list string) :
  has_duplicates entries = false ->
  List.NoDup idx -> List.NoDup cols ->
  (forall e, In e entries -> In (fst (fst e)) idx /\ In (snd (fst e)) cols) ->
  zsum (List.map
          (fun m => zsum (List.map (fun s => cell_value (entry_value m s entries))
                            cols))
          idx)
  = zsum (List.map snd entries).
Proof.
  intros Hdup Hidx Hcols. induction entries as [|e entries IH]; intros Hin.
  - apply zsum_map_zero. intros m _. apply zsum_map_zero. reflexivity.
  - cbn [has_duplicates] in Hdup. apply orb_false_iff in Hdup.
    destruct Hdup as [Hfresh Hdup].
    destruct e as [[m0 s0] v0]. cbn [fst snd] in *.
    assert (Hnone : entry_value m0 s0 entries = None).
    { apply entry_value_absent. intros e He [Hm Hs].
      assert (Hex : existsb (same_entry m0 s0) entries = true).
      { apply List.existsb_exists. exists e. split; [exact He|].
        apply same_entry_true. auto. }
      congruence. }
    destruct (Hin (m0, s0, v0) (or_introl eq_refl)) as [Hm0 Hs0].
    cbn [fst snd] in Hm0, Hs0.
    transitivity
      (zsum (List.map
               (fun m =>
                  zsum (List.map (fun s => cell_value (entry_value m s entries)) cols)
                  + (if String.eqb m m0 then v0 else 0))
               idx)).
    + apply zsum_map_ext. intros m _.
      destruct (String.eqb m m0) eqn:Hm.
      * apply String.eqb_eq in Hm. subst m.
        transitivity
          (zsum (List.map (fun s => cell_value (entry_value m0 s entries)) cols)
           + zsum (List.map (fun x => if String.eqb x s0 then v0 else 0) cols));
          [|rewrite (zsum_at_label cols s0 v0 Hcols Hs0); reflexivity].
        rewrite <- zsum_map_add. apply zsum_map_ext. intros s _.
        rewrite entry_value_cons. unfold same_entry. cbn [fst snd].
        rewrite String.eqb_refl. cbn [andb].
        destruct (String.eqb s s0) eqn:Hs.
        -- apply String.eqb_eq in Hs. subst s. rewrite Hnone. reflexivity.
        -- cbn [cell_value]. lia.
      * rewrite Z.add_0_r. apply zsum_map_ext. intros s _.
        rewrite entry_value_cons. unfold same_entry. cbn [fst snd].
        rewrite Hm. reflexivity.
    + rewrite zsum_map_add, (zsum_at_label idx m0 v0 Hidx Hm0).
      rewrite IH; [|exact Hdup|intros e He; apply Hin; right; exact He].
      unfold zsum. cbn [List.map fold_right snd]. lia.
Qed.

Lemma keyed_time_values (df : list alarm) :
  List.map snd (keyed (List.map time_key df))
  = List.map numberOfOccurrences
      (List.filter (fun r => has_site r && has_time r) df).
Proof.
  induction df as [|r df IH]; [reflexivity|].
  cbn [List.map List.filter]. unfold time_key at 1, has_site at 1, has_time at 1.
  destruct (firstTimeDetected r), (neName r); cbn [keyed andb List.map snd];
    rewrite ?IH; reflexivity.
Qed.

Lemma cell_value_fill0 (c : option Z) : cell_value (fill0 c) = cell_value c.
Proof. destruct c; reflexivity. Qed.

Lemma entry_value_In (m s : string) (entries : list (string * string * Z)) (v : Z) :
  entry_value m s entries = Some v -> In v (List.map snd entries).
Proof.
  unfold entry_value. destruct (List.find _ entries) as [e|] eqn:Hf; [|discriminate].
  intros Heq. inversion Heq; subst. apply List.find_some in Hf.
  apply List.in_map. taut.
Qed.

Lemma filter_site_and_time (df : list alarm) :
  forallb has_time df = true ->
  List.filter (fun r => has_site r && has_time r) df = List.filter has_site df.
Proof.
  intros Hall. apply List.filter_ext_in. intros r Hr.
  rewrite List.forallb_forall in Hall. rewrite (Hall r Hr). apply andb_true_r.
Qed.

Lemma Forall_filter_counts (p : alarm -> bool) (df : list alarm) :
  Forall (fun r => 0 <= numberOfOccurrences r) df ->
  Forall (fun x => 0 <= x) (List.map numberOfOccurrences (List.filter p df)).
Proof.
  intros Hall. apply List.Forall_forall. intros x Hx.
  apply List.in_map_iff in Hx. destruct Hx as [r [<- Hr]].
  apply List.filter_In in Hr. rewrite List.Forall_forall in Hall.
  apply Hall. taut.
Qed.

(** The cells of the matrix of a table whose counts are not negative and
    add up to less than 2^53 add up to the counts of the rows that have a
    site name and a time. *)
Lemma matrix_sum_exact (df : list alarm) (p : pivot) :
  matrix df = Some p ->
  Forall (fun r => 0 <= numberOfOccurrences r) df ->
  total_occurrences (List.filter (fun r => has_site r && has_time r) df) < 2 ^ 53 ->
  matrix_sum p
  = total_occurrences (List.filter (fun r => has_site r && has_time r) df).
Proof.
  intros Hp Hnn Hsmall.
  destruct (matrix_shape df p Hp) as [_ [Hi [Hc Hv]]].
  set (named := List.filter (fun r => has_site r && has_time r) df) in *.
  destruct (groupby_sum_exact (List.map time_key df)) as [Hsum Hpos].
  { rewrite keyed_time_values. apply Forall_filter_counts. exact Hnn. }
  { rewrite keyed_time_values. fold named. fold (total_occurrences named).
    unfold int64_max. lia. }
  rewrite keyed_time_values in Hsum. fold named in Hsum.
  fold (total_occurrences named) in Hsum.
  set (groups := groupby_sum (List.map time_key df)) in *.
  assert (Hent : List.map snd (month_site_totals df) = List.map snd groups).
  { unfold month_site_totals. fold groups. rewrite List.map_map. reflexivity. }
  assert (Hstored : forall m s,
             as_stored (has_gaps (raw_values (month_site_totals df)))
               (entry_value m s (month_site_totals df))
             = entry_value m s (month_site_totals df)).
  { intros m s. destruct (entry_value m s (month_site_totals df)) as [v|] eqn:Hev;
      [|apply as_stored_none].
    apply as_stored_small. apply entry_value_In in Hev. rewrite Hent in Hev.
    pose proof (zsum_ge_member _ _ Hpos Hev) as Hle.
    rewrite List.Forall_forall in Hpos. specialize (Hpos _ Hev). lia. }
  unfold matrix_sum. rewrite Hv. unfold promote, raw_values.
  rewrite !List.map_map.
  transitivity
    (zsum (List.map
             (fun m =>
                zsum (List.map
                        (fun s => cell_value (entry_value m s (month_site_totals df)))
                        (columns_of (month_site_totals df))))
             (index_of (month_site_totals df)))).
  { apply zsum_map_ext. intros m _. rewrite !List.map_map.
    apply zsum_map_ext. intros s _.
    rewrite cell_value_fill0.
    change (has_gaps
              (List.map
                 (fun m0 =>
                    List.map (fun s0 => entry_value m0 s0 (month_site_totals df))
                      (columns_of (month_site_totals df)))
                 (index_of (month_site_totals df))))
      with (has_gaps (raw_values (month_site_totals df))).
    rewrite Hstored. reflexivity. }
  rewrite matrix_cells_total.
  - rewrite Hent. exact Hsum.
  - unfold month_site_totals. apply ascending_no_duplicates, groupby_sum_ascending.
  - apply labels_ascending_NoDup, axis_labels_ascending.
  - apply labels_ascending_NoDup, axis_labels_ascending.
  - intros e He. unfold index_of, columns_of. rewrite !axis_labels_In. split.
    + apply List.in_map_iff. exists e. auto.
    + apply List.in_map_iff. exists e. auto.
Qed.

(** The sum of the site totals of a table whose counts are not negative and
    add up to less than 2^53 is the sum of the counts of the rows that have
    a site name. *)
Lemma site_totals_exact (df : list alarm) :
  Forall (fun r => 0 <= numberOfOccurrences r) df ->
  total_occurrences (List.filter has_site df) < 2 ^ 53 ->
  sum_values (site_criticals df) = total_occurrences (List.filter has_site df).
Proof.
  intros Hnn Hsmall. rewrite site_criticals_total.
  pose proof (zsum_nonneg _ (Forall_filter_counts has_site df Hnn)) as Hpos.
  fold (total_occurrences (List.filter has_site df)) in Hpos.
  apply wrap64_small. unfold int64_min, int64_max. lia.
Qed.

(** X15.  When no occurrence count is negative and the counts of the rows
    that have a site name and a first-detection time add up to less than
    2^53, the cells of the matrix add up to that sum.  When every filtered
    row has a first-detection time, as after loading, the matrix therefore
    adds up to the sum of the site totals. *)
Theorem pivot_table_sum_is_grand_total (df : list alarm) (p : pivot) :
  matrix df = Some p ->
  Forall (fun r => 0 <= numberOfOccurrences r) df ->
  total_occurrences (List.filter (fun r => has_site r && has_time r) df) < 2 ^ 53 ->
  matrix_sum p
  = total_occurrences (List.filter (fun r => has_site r && has_time r) df)
  /\ (forallb has_time df = true ->
      matrix_sum p = sum_values (site_criticals df)).
Proof.
  intros Hp Hnn Hsmall.
  pose proof (matrix_sum_exact df p Hp Hnn Hsmall) as Hsum.
  split; [exact Hsum|].
  intros Hall. rewrite Hsum, (filter_site_and_time _ Hall).
  symmetry. apply site_totals_exact; [exact Hnn|].
  rewrite <- (filter_site_and_time _ Hall). exact Hsmall.
Qed.

(** ** The marking of top sites (lines 57-66 and 108-113) *)

(** X16.  On every run that shows the record table, the table shown differs
    from the filtered table only in the site names of the rows whose site
    has the greatest total: it has the same rows in the same order with the
    same severity, count and timestamps; a row of another site, or without a
    site name, is shown as it is; and the loaded table itself is left as it
    was, also when nothing is selected and the filtered table is the loaded
    table. *)
Theorem display_copy_marks_only_top_sites (rows : list alarm)
        (selection : list string) :
  exists w,
    run rows selection = Some w
    /\ heap w !! 0%nat = Some (Alarms rows)
    /\ (site_criticals (apply_filter selection rows) <> [] ->
        exists shown,
          In (Dataframe shown) (page w)
          /\ List.map (fun r => (severity r, numberOfOccurrences r,
                                 firstTimeDetected r, lastTimeDetected r)) shown
             = List.map (fun r => (severity r, numberOfOccurrences r,
                                   firstTimeDetected r, lastTimeDetected r))
                 (apply_filter selection rows)
          /\ (forall r,
                In r (apply_filter selection rows) ->
                (forall s, neName r = Some s ->
                           ~ has_greatest_total
                               (site_criticals (apply_filter selection rows)) s) ->
                In r shown)
          /\ (forall r',
                In r' shown ->
                exists r,
                  In r (apply_filter selection rows)
                  /\ (r' = r
                      \/ exists s,
                           neName r = Some s
                           /\ has_greatest_total
                                (site_criticals (apply_filter selection rows)) s
                           /\ neName r' = Some (s ++ " 🚨")%string))).
Proof.
  destruct (pipeline_spec 0%nat selection rows
              {| heap := [Alarms rows]; page := [] |} eq_refl)
    as [new Hrun].
  set (df := apply_filter selection rows) in *.
  eexists. split; [unfold run; rewrite Hrun; reflexivity|].
  cbn [heap page]. split; [reflexivity|].
  intros Hne.
  destruct (site_criticals df) as [|t0 totals'] eqn:Htot; [congruence|].
  set (totals := t0 :: totals') in *.
  assert (Hother : forall r,
             (forall s, neName r = Some s -> ~ has_greatest_total totals s) ->
             set_neName (mark_name (top_sites totals)) r = r).
  { intros [[s|] sev n f l] Hnot; unfold set_neName; simpl; [|reflexivity].
    destruct (mark_greatest totals s) as [_ H2].
    rewrite H2; [reflexivity|]. apply Hnot. reflexivity. }
  eexists. split; [right; left; reflexivity|].
  split; [rewrite List.map_map; reflexivity|].
  split.
  - intros r Hr Hnot. apply List.in_map_iff. exists r.
    split; [apply Hother; exact Hnot | exact Hr].
  - intros r' Hr'. apply List.in_map_iff in Hr'. destruct Hr' as [r [<- Hr]].
    exists r. split; [exact Hr|].
    destruct (neName r) as [s|] eqn:Hn.
    + destruct (isin s (top_sites totals)) eqn:Htop.
      * right. exists s. apply isin_In in Htop.
        split; [reflexivity|].
        split; [apply top_sites_greatest; exact Htop|].
        cbn [set_neName neName]. rewrite Hn. cbn [mark_name].
        rewrite (mark_top _ _ Htop). reflexivity.
      * left. apply Hother. intros s' Hs' Hg. rewrite Hn in Hs'.
        inversion Hs'; subst s'.
        apply top_sites_greatest, isin_In in Hg. congruence.
    + left. apply Hother. intros s Hs. rewrite Hn in Hs. discriminate.
Qed.

Lemma siren_suffix_inj (a b : string) :
  (a ++ siren)%string = (b ++ siren)%string -> a = b.
Proof. intros Heq. apply append_inj_r in Heq; [taut | reflexivity]. Qed.

Lemma mark_inj (tops : list string) (cols : list string) (a b : string) :
  (forall s s', In s cols -> In s' cols -> s' <> (s ++ siren)%string) ->
  In a cols -> In b cols -> mark tops a = mark tops b -> a = b.
Proof.
  intros Hfree Ha Hb. unfold mark.
  destruct (isin a tops), (isin b tops); intros Heq.
  - apply siren_suffix_inj. exact Heq.
  - exfalso. apply (Hfree a b Ha Hb). symmetry. exact Heq.
  - exfalso. apply (Hfree b a Hb Ha). exact Heq.
  - exact Heq.
Qed.

(** X17.  Renaming the columns of the matrix keeps its months and its
    values and marks exactly the top sites.  The renamed site labels stay
    distinct provided no site is named like another site followed by the
    marker. *)
Theorem rename_keeps_matrix (tops : list string) (p : pivot) :
  List.NoDup (pivot_columns p) ->
  (forall s s', In s (pivot_columns p) -> In s' (pivot_columns p) ->
                s' <> (s ++ siren)%string) ->
  pivot_index (rename_columns (rename_map tops) p) = pivot_index p
  /\ pivot_values (rename_columns (rename_map tops) p) = pivot_values p
  /\ pivot_columns (rename_columns (rename_map tops) p)
     = List.map (mark tops) (pivot_columns p)
  /\ List.NoDup (pivot_columns (rename_columns (rename_map tops) p)).
Proof.
  intros Hnd Hfree.
  assert (Hcols : pivot_columns (rename_columns (rename_map tops) p)
                  = List.map (mark tops) (pivot_columns p)).
  { unfold rename_columns. cbn [pivot_columns].
    apply List.map_ext. apply rename_label_mark. }
  split; [reflexivity|]. split; [reflexivity|]. split; [exact Hcols|].
  rewrite Hcols. clear Hcols.
  revert Hnd Hfree. generalize (pivot_columns p) as cols. intros cols Hnd Hfree.
  assert (Hsub : forall l, incl l cols -> List.NoDup l ->
                           List.NoDup (List.map (mark tops) l)).
  { induction l as [|x l IH]; intros Hincl Hl; simpl; [constructor|].
    inversion Hl as [|? ? Hx Hl']; subst.
    constructor.
    - intros Hin. apply List.in_map_iff in Hin. destruct Hin as [y [Hy Hyl]].
      apply (mark_inj tops cols) in Hy;
        [subst; contradiction | exact Hfree | | ].
      + apply Hincl. right. exact Hyl.
      + apply Hincl. left. reflexivity.
    - apply IH; [|exact Hl']. intros z Hz. apply Hincl. right. exact Hz. }
  apply Hsub; [intros z Hz; exact Hz | exact Hnd].
Qed.

Lemma rename_keeps_matrix_witness :
  pivot_index (rename_columns (rename_map ["A"])
                 {| pivot_index := ["2024-01"]; pivot_columns := ["A"; "B"];
                    pivot_values := [[Some 5; Some 0]] |})
  = pivot_index {| pivot_index := ["2024-01"]; pivot_columns := ["A"; "B"];
                   pivot_values := [[Some 5; Some 0]] |}
  /\ pivot_values (rename_columns (rename_map ["A"])
                     {| pivot_index := ["2024-01"]; pivot_columns := ["A"; "B"];
                        pivot_values := [[Some 5; Some 0]] |})
     = pivot_values {| pivot_index := ["2024-01"]; pivot_columns := ["A"; "B"];
                       pivot_values := [[Some 5; Some 0]] |}
  /\ pivot_columns (rename_columns (rename_map ["A"])
                      {| pivot_index := ["2024-01"]; pivot_columns := ["A"; "B"];
                         pivot_values := [[Some 5; Some 0]] |})
     = List.map (mark ["A"])
         (pivot_columns {| pivot_index := ["2024-01"]; pivot_columns := ["A"; "B"];
                           pivot_values := [[Some 5; Some 0]] |})
  /\ List.NoDup
       (pivot_columns (rename_columns (rename_map ["A"])
                         {| pivot_index := ["2024-01"]; pivot_columns := ["A"; "B"];
                            pivot_values := [[Some 5; Some 0]] |})).
Proof.
  apply (rename_keeps_matrix ["A"]
           {| pivot_index := ["2024-01"]; pivot_columns := ["A"; "B"];
              pivot_values := [[Some 5; Some 0]] |}).
  - simpl. repeat constructor; simpl; no_params; intuition discriminate.
  - simpl. intros s s' [<-|[<-|[]]] [<-|[<-|[]]]; discriminate.
Defined.

(** ** The cached load across executions (lines 11, 22 and 31-32) *)

Lemma session_warm (triggers : list trigger) (t : loaded) :
  forallb no_click triggers = true ->
  session triggers (Some t)
  = List.map (fun tr => script t (selection_now tr)) triggers.
Proof.
  induction triggers as [|tr triggers IH]; [reflexivity|].
  cbn [forallb]. intros Hall. apply andb_true_iff in Hall.
  destruct Hall as [Ht Hall]. unfold no_click in Ht.
  apply negb_true_iff in Ht.
  cbn [session List.map]. unfold app, cached_load_data. rewrite Ht.
  rewrite (IH Hall). reflexivity.
Qed.

Lemma session_cold (first : trigger) (later : list trigger) :
  reload_clicked_now first = false ->
  session (first :: later) None
  = match load (file_now first) with
    | inr t =>
        script t (selection_now first) :: session later (Some t)
    | inl e => Some (failed e) :: session later None
    end.
Proof.
  intros Ht. cbn [session]. unfold app, cached_load_data.
  destruct (load (file_now first)) as [e|t]; [reflexivity|].
  rewrite Ht. reflexivity.
Qed.

(** X18.  Without a click on "Reload Data" the file is read once: however
    the file changes between executions, when the first load of a session
    that starts with an empty cache returns a table, every execution shows
    that table, filtered by the selection of the moment.  When the first load
    raises, the execution shows the exception alone and keeps nothing: the
    next execution starts with an empty cache again. *)
Theorem session_reads_file_once (first : trigger) (later : list trigger) :
  forallb no_click (first :: later) = true ->
  (forall t,
      load (file_now first) = inr t ->
      session (first :: later) None
      = List.map (fun tr => script t (selection_now tr)) (first :: later))
  /\ (forall e,
        load (file_now first) = inl e ->
        session (first :: later) None
        = Some (failed e) :: session later None).
Proof.
  cbn [forallb]. intros Hall. apply andb_true_iff in Hall.
  destruct Hall as [Ht Hall]. unfold no_click in Ht.
  apply negb_true_iff in Ht.
  rewrite (session_cold _ _ Ht). split.
  - intros t ->. rewrite (session_warm _ _ Hall). reflexivity.
  - intros e ->. reflexivity.
Qed.

(** X19.  A click on "Reload Data" takes effect one execution late.  The
    execution in which the button was clicked still shows the table that
    was in the cache (the cache is emptied after the load of line 22), and
    does not read the file; the next execution reads the file as it is then:
    when that load returns a table, the executions up to the next click show
    it, and when it raises, the execution shows the exception alone and the
    cache stays empty. *)
Theorem reload_shows_on_next_run (clicked next : trigger) (later : list trigger)
        (t0 : loaded) :
  reload_clicked_now clicked = true ->
  forallb no_click (next :: later) = true ->
  (forall t,
      load (file_now next) = inr t ->
      session (clicked :: next :: later) (Some t0)
      = script t0 (selection_now clicked)
        :: List.map (fun tr => script t (selection_now tr)) (next :: later))
  /\ (forall e,
        load (file_now next) = inl e ->
        session (clicked :: next :: later) (Some t0)
        = script t0 (selection_now clicked)
          :: Some (failed e) :: session later None).
Proof.
  intros Hclick Hquiet.
  assert (Hfirst : session (clicked :: next :: later) (Some t0)
                   = script t0 (selection_now clicked)
                     :: session (next :: later) None).
  { cbn [session]. unfold app at 1, cached_load_data at 1. rewrite Hclick.
    reflexivity. }
  rewrite Hfirst.
  destruct (session_reads_file_once next later Hquiet) as [H1 H2].
  split.
  - intros t Ht. rewrite (H1 t Ht). reflexivity.
  - intros e He. rewrite (H2 e He). reflexivity.
Qed.

(** ** The order of the months (lines 103-106) *)

Lemma all_from_spec (fuel : nat) (d : Z) (p : Z -> bool) :
  all_from fuel d p = true ->
  forall k, d <= k < d + Z.of_nat fuel -> p k = true.
Proof.
  no_params.
  revert d. induction fuel as [|fuel IH]; intros d Hall k Hk; [lia|].
  cbn [all_from] in Hall. apply andb_true_iff in Hall. destruct Hall as [Hd Hrest].
  destruct (Z.eq_dec k d) as [->|Hne]; [exact Hd|].
  apply (IH (d + 1) Hrest). lia.
Qed.

Lemma all_from_range (n d : Z) (p : Z -> bool) :
  all_from (Z.to_nat n) d p = true ->
  forall k, d <= k < d + n -> p k = true.
Proof.
  no_params.
  intros Hall k Hk. apply (all_from_spec _ _ _ Hall). lia.
Qed.

(** Every day a timestamp can fall on lies in a year of four digits. *)
Lemma day_bin_years (d : Z) :
  -106752 <= d <= 106751 ->
  1000 <= bin_year (day_bin d) <= 9999.
Proof.
  intros Hd. no_params. unfold bin_year, day_bin, civil_year_month. cbv zeta.
  set (z := d + 719468).
  set (era := z / 146097).
  set (doe := z - era * 146097).
  set (yoe := (doe - doe / 1460 + doe / 36524 - doe / 146096) / 365).
  set (doy := doe - (365 * yoe + yoe / 4 - yoe / 100)).
  set (mp := (5 * doy + 2) / 153).
  assert (Hera : 4 <= era <= 5)
    by (subst era z; Z.div_mod_to_equations; lia).
  assert (Hdoe : 0 <= doe <= 146096)
    by (subst doe era z; Z.div_mod_to_equations; lia).
  assert (Hyoe : -1 <= yoe <= 401)
    by (subst yoe; Z.div_mod_to_equations; lia).
  assert (Hdoy : -200 <= doy <= 600)
    by (subst doy yoe; clearbody doe; Z.div_mod_to_equations; lia).
  assert (Hmp : -10 <= mp <= 30)
    by (subst mp; Z.div_mod_to_equations; lia).
  clearbody mp yoe era.
  destruct (mp <? 10); destruct (_ <=? 2); Z.div_mod_to_equations; lia.
Qed.

Lemma month_bin_years (t : Z) :
  ms_in_bounds t = true -> 1000 <= bin_year (month_bin t) <= 9999.
Proof.
  no_params.
  unfold ms_in_bounds. intros Hb. apply andb_true_iff in Hb.
  destruct Hb as [H1 H2]. apply Z.leb_le in H1, H2.
  change (month_bin t) with (day_bin (t / ms_per_day)).
  apply day_bin_years. unfold ms_per_day.
  split.
  - apply Z.div_le_lower_bound; lia.
  - assert (t / 86400000 < 106752); [|lia].
    apply Z.div_lt_upper_bound; lia.
Qed.

Lemma str_Z_four_digits (y : Z) :
  1000 <= y <= 9999 -> str_Z y = four_digits y.
Proof.
  no_params.
  intros Hy.
  assert (Hall : all_from (Z.to_nat 9000) 1000
                   (fun y => String.eqb (str_Z y) (four_digits y)) = true)
    by (vm_compute; reflexivity).
  pose proof (all_from_range _ _ _ Hall y) as Hk. cbv beta in Hk.
  apply String.eqb_eq, Hk. lia.
Qed.

Lemma digit_compare (a b : Z) :
  0 <= a < 10 -> 0 <= b < 10 -> Ascii.compare (digit a) (digit b) = Z.compare a b.
Proof.
  no_params.
  intros Ha Hb.
  assert (Hall : all_from (Z.to_nat 10) 0
                   (fun a => all_from (Z.to_nat 10) 0
                               (fun b =>
                                  match Ascii.compare (digit a) (digit b),
                                        Z.compare a b with
                                  | Eq, Eq | Lt, Lt | Gt, Gt => true
                                  | _, _ => false
                                  end)) = true)
    by (vm_compute; reflexivity).
  pose proof (all_from_range _ _ _ Hall a) as Hka. cbv beta in Hka.
  assert (Hina : 0 <= a < 0 + 10) by lia.
  pose proof (all_from_range _ _ _ (Hka Hina) b) as Hkb. cbv beta in Hkb.
  assert (Hinb : 0 <= b < 0 + 10) by lia.
  apply Hkb in Hinb.
  destruct (Ascii.compare (digit a) (digit b)), (Z.compare a b);
    congruence.
Qed.

Lemma compare_digit_head (a b : Z) (s t : string) :
  0 <= a < 10 -> 0 <= b < 10 ->
  String.compare (String (digit a) s) (String (digit b) t)
  = match Z.compare a b with
    | Eq => String.compare s t
    | c => c
    end.
Proof.
  no_params.
  intros Ha Hb. cbn [String.compare]. rewrite (digit_compare a b Ha Hb).
  destruct (Z.compare a b); reflexivity.
Qed.

Lemma compare_four_digits (y1 y2 : Z) (s t : string) :
  1000 <= y1 <= 9999 -> 1000 <= y2 <= 9999 ->
  String.compare (four_digits y1 ++ s) (four_digits y2 ++ t)
  = match Z.compare y1 y2 with
    | Eq => String.compare s t
    | c => c
    end.
Proof.
  no_params.
  intros H1 H2. unfold four_digits. cbn [String.append].
  rewrite !compare_digit_head by (Z.div_mod_to_equations; lia).
  destruct (Z.compare_spec (y1 / 1000) (y2 / 1000)) as [E3|E3|E3];
    [destruct (Z.compare_spec (y1 / 100 mod 10) (y2 / 100 mod 10)) as [E2|E2|E2];
     [destruct (Z.compare_spec (y1 / 10 mod 10) (y2 / 10 mod 10)) as [E1|E1|E1];
      [destruct (Z.compare_spec (y1 mod 10) (y2 mod 10)) as [E0|E0|E0]|..]|..]|..];
    destruct (Z.compare_spec y1 y2) as [E|E|E]; try reflexivity;
    exfalso; Z.div_mod_to_equations; lia.
Qed.

Lemma compare_two_digits (m1 m2 : Z) :
  0 <= m1 < 100 -> 0 <= m2 < 100 ->
  String.compare (two_digits m1) (two_digits m2) = Z.compare m1 m2.
Proof.
  no_params.
  intros H1 H2. unfold two_digits.
  rewrite !compare_digit_head by (Z.div_mod_to_equations; lia).
  cbn [String.compare].
  destruct (Z.compare_spec (m1 / 10) (m2 / 10)) as [E1|E1|E1];
    [destruct (Z.compare_spec (m1 mod 10) (m2 mod 10)) as [E0|E0|E0]|..];
    destruct (Z.compare_spec m1 m2) as [E|E|E]; try reflexivity;
    exfalso; Z.div_mod_to_equations; lia.
Qed.

(** For months in years of four digits the order of the labels is the order
    of the months. *)
Lemma strftime_Ym_compare (b1 b2 : Z) :
  1000 <= bin_year b1 <= 9999 -> 1000 <= bin_year b2 <= 9999 ->
  String.compare (strftime_Ym b1) (strftime_Ym b2) = Z.compare b1 b2.
Proof.
  no_params.
  intros H1 H2. unfold strftime_Ym.
  rewrite !str_Z_four_digits by assumption.
  rewrite compare_four_digits by assumption.
  change ("-" ++ two_digits (bin_month b1))%string
    with (String "-" (two_digits (bin_month b1))).
  change ("-" ++ two_digits (bin_month b2))%string
    with (String "-" (two_digits (bin_month b2))).
  cbn [String.compare].
  replace (Ascii.compare "-" "-") with Eq by reflexivity.
  unfold bin_year, bin_month in *.
  rewrite compare_two_digits by (Z.div_mod_to_equations; lia).
  destruct (Z.compare_spec (1970 + b1 / 12) (1970 + b2 / 12)) as [E1|E1|E1];
    [destruct (Z.compare_spec (b1 mod 12 + 1) (b2 mod 12 + 1)) as [E0|E0|E0]|..];
    destruct (Z.compare_spec b1 b2) as [E|E|E]; try reflexivity;
    exfalso; Z.div_mod_to_equations; lia.
Qed.

Lemma grouper_accepts_in_bounds (t : Z) :
  grouper_accepts t = true -> ms_in_bounds t = true.
Proof.
  no_params.
  unfold grouper_accepts, grouper_min_ms, grouper_end_ms, ms_in_bounds.
  intros Hb. apply andb_true_iff in Hb. destruct Hb as [H1 H2].
  apply Z.leb_le in H1. apply Z.ltb_lt in H2.
  apply andb_true_iff. split; apply Z.leb_le; lia.
Qed.

Lemma index_label_year (df : list alarm) (p : pivot) (b : Z) :
  matrix df = Some p ->
  In (strftime_Ym b) (pivot_index p) ->
  1000 <= bin_year b <= 9999.
Proof.
  intros Hp Hin.
  destruct (matrix_shape df p Hp) as [Hb [Hi _]].
  rewrite Hi in Hin. apply index_of_In in Hin.
  destruct Hin as [r [t [s [Hr [Ht [_ Hl]]]]]].
  apply strftime_Ym_inj in Hl. subst b.
  apply month_bin_years, grouper_accepts_in_bounds.
  unfold bins_in_bounds in Hb. rewrite List.forallb_forall in Hb.
  specialize (Hb r Hr). rewrite Ht in Hb. exact Hb.
Qed.

(** X20.  Whenever line 98 yields the matrix, its rows are in chronological
    order: a month label that stands above another one is the label of an
    earlier month. *)
Theorem heat_map_months_chronological (df : list alarm) (p : pivot) :
  matrix df = Some p ->
  forall i j b1 b2,
    (i < j)%nat ->
    nth_error (pivot_index p) i = Some (strftime_Ym b1) ->
    nth_error (pivot_index p) j = Some (strftime_Ym b2) ->
    b1 < b2.
Proof.
  intros Hp i j b1 b2 Hij H1 H2.
  assert (Hy1 : 1000 <= bin_year b1 <= 9999).
  { eapply index_label_year; eauto. eapply List.nth_error_In. exact H1. }
  assert (Hy2 : 1000 <= bin_year b2 <= 9999).
  { eapply index_label_year; eauto. eapply List.nth_error_In. exact H2. }
  assert (Hs : labels_ascending (pivot_index p)).
  { destruct (matrix_shape df p Hp) as [_ [Hi _]]. rewrite Hi.
    apply axis_labels_ascending. }
  pose proof (sorted_nth_error _ _ _ _ _ _ Hs Hij H1 H2) as Hlt.
  cbv beta in Hlt. rewrite (strftime_Ym_compare _ _ Hy1 Hy2) in Hlt.
  apply Z.compare_lt_iff. exact Hlt.
Qed.

Lemma heat_map_months_chronological_witness :
  month_bin 1704412800000 < month_bin 1707523200000.
Proof.
  apply (heat_map_months_chronological scenario
           {| pivot_index := ["2024-01"; "2024-02"];
              pivot_columns := ["A"; "B"];
              pivot_values := [[Some 105; Some 0]; [Some 0; Some 5]] |}
           eq_refl 0%nat 1%nat (month_bin 1704412800000)
           (month_bin 1707523200000));
    [lia | reflexivity | reflexivity].
Defined.

(** ** The page of a loaded table *)




End Dashboard.

(** * The scenarios, evaluated

    With the parameters of the examples: [no_text_ms], [wide_ms_sample],
    [stable_rank] and [exact_mean2]. *)

Example lower_mixed_case : lower "CRITICAL" = "critical" /\ lower "Major" = "major".
Proof. split; reflexivity. Qed.

Example label_of_two_severities :
  severity_label ["critical"; "major"] = "Critical / Major".
Proof. reflexivity. Qed.

Example month_labels :
  strftime_Ym (month_bin 1704412800000) = "2024-01"
  /\ strftime_Ym (month_bin 951782400000) = "2000-02"
  /\ strftime_Ym (month_bin 951868800000) = "2000-03"
  /\ strftime_Ym (month_bin (-1)) = "1969-12".
Proof. repeat split; reflexivity. Qed.

(** The first and the last month line 98 accepts. *)
Example grouper_months :
  strftime_Ym (month_bin grouper_min_ms) = "1677-10"
  /\ strftime_Ym (month_bin (grouper_min_ms - 1)) = "1677-09"
  /\ strftime_Ym (month_bin (grouper_end_ms - 1)) = "2262-03"
  /\ grouper_accepts grouper_min_ms = true
  /\ grouper_accepts (grouper_min_ms - 1) = false
  /\ grouper_accepts (grouper_end_ms - 1) = true
  /\ grouper_accepts grouper_end_ms = false.
Proof. repeat split; reflexivity. Qed.

(** Filtered by ["critical"]: totals A = 5 and B = 5, both top sites, grand
    total 10, mean 5, two sites. *)
Example scenario_critical :
  site_criticals stable_rank (apply_filter ["critical"] scenario)
  = [("A", 5); ("B", 5)]
  /\ top_sites (site_criticals stable_rank (apply_filter ["critical"] scenario))
     = ["A"; "B"]
  /\ option_map (fun w => List.filter is_metric (page w))
       (run stable_rank exact_mean2 scenario ["critical"])
     = Some [Metric "Total Critical" (MInt 10);
             Metric "Average Critical per Site" (MFloat (Some (Qmake 5 1)));
             Metric "Number of Sites" (MInt 2)].
Proof. repeat split; reflexivity. Qed.

(** Without selection: totals A = 105 and B = 5, A the only top site, grand
    total 110, mean 55. *)
Example scenario_unfiltered :
  site_criticals stable_rank (apply_filter [] scenario) = [("A", 105); ("B", 5)]
  /\ top_sites (site_criticals stable_rank (apply_filter [] scenario)) = ["A"]
  /\ option_map (fun w => List.filter is_metric (page w))
       (run stable_rank exact_mean2 scenario [])
     = Some [Metric "Total All Severities" (MInt 110);
             Metric "Average All Severities per Site" (MFloat (Some (Qmake 55 1)));
             Metric "Number of Sites" (MInt 2)].
Proof. repeat split; reflexivity. Qed.

(** The matrix of the scenario filtered by ["critical"]: site A has no alarm
    in February and site B none in January, so it is a matrix of doubles. *)
Example scenario_matrix :
  matrix (apply_filter ["critical"] scenario)
  = Some {| pivot_index := ["2024-01"; "2024-02"];
            pivot_columns := ["A"; "B"];
            pivot_values := [[Some 5; Some 0]; [Some 0; Some 5]] |}
  /\ matrix_is_float (apply_filter ["critical"] scenario) = true.
Proof. split; reflexivity. Qed.

(** The loaded scenario. *)
Example scenario_loaded :
  load_data no_text_ms wide_ms_sample scenario_sheet = Some scenario
  /\ str_accessor scenario_sheet = true.
Proof. split; reflexivity. Qed.

(** A 64-bit sum wraps around, and a double does not hold every 64-bit
    integer. *)
Example large_counts :
  total_occurrences large_counts_table = 9223372036854775815
  /\ site_criticals stable_rank large_counts_table
     = [("A", -9223372036854775801)]
  /\ option_map (fun w => nth_error (List.filter is_metric (page w)) 0)
       (run stable_rank exact_mean2 large_counts_table [])
     = Some (Some (Metric "Total All Severities" (MInt (-9223372036854775801))))
  /\ as_float64 9007199254740993 = 9007199254740992
  /\ as_float64 9223372036854775807 = 9223372036854775808.
Proof. repeat split; reflexivity. Qed.

(** A first detection in September 1677 is a timestamp, and the monthly
    grouping of line 98 raises on it after the table and the metrics have
    been shown. *)
Example grouping_out_of_bounds :
  bins_in_bounds early_table = false
  /\ matrix early_table = None
  /\ option_map (fun w => List.map is_table (page w))
       (run stable_rank exact_mean2 early_table [])
     = Some [false; true; false; false; false; false; false; false; false; false]
  /\ option_map (fun w => last (page w))
       (run stable_rank exact_mean2 early_table [])
     = Some (Some (Uncaught OutOfBoundsDatetime))
  /\ option_map (fun w => last (page w))
       (run stable_rank exact_mean2 early_nameless_table [])
     = Some (Some (Uncaught OutOfBoundsDatetime)).
Proof. repeat split; reflexivity. Qed.

(** A session: the first visit loads the scenario; the second, with the file
    gone, still shows it; a click on "Reload Data" shows it once more and
    empties the cache; the visit after that finds no file. *)
Example session_of_four :
  List.map (option_map (fun w => nth_error (page w) 0))
    (session no_text_ms wide_ms_sample stable_rank exact_mean2
       [first_visit; later_visit;
        {| file_now := None; reload_clicked_now := true; selection_now := [] |};
        later_visit]
       None)
  = [Some (Some (Subheader "Alarm Details"));
     Some (Some (Subheader "Alarm Details"));
     Some (Some (Subheader "Alarm Details"));
     Some (Some (Uncaught FileError))].
Proof. reflexivity. Qed.

(** * Witnesses and counterexamples *)





Lemma run_keeps_source_records_witness :
  exists w',
    pipeline stable_rank exact_mean2 0%nat []
      {| heap := [Alarms scenario]; page := [] |} = Some (tt, w')
    /\ heap w' !! 0%nat = Some (Alarms scenario)
    /\ (forall r f,
          heap {| heap := [Alarms scenario]; page := [] |} !! r = Some f ->
          heap w' !! r = Some f)
    /\ (exists new,
          heap w' = heap {| heap := [Alarms scenario]; page := [] |} ++ new).
Proof.
  apply (run_keeps_source_records stable_rank exact_mean2
           {| heap := [Alarms scenario]; page := [] |} 0%nat scenario []).
  reflexivity.
Defined.




Lemma load_data_timestamps_in_range_witness :
  Forall
    (fun r =>
       (exists t, firstTimeDetected r = Some t
                  /\ -9223372036854 <= t <= 9223372036854)
       /\ (forall t, lastTimeDetected r = Some t
                     -> -9223372036854 <= t <= 9223372036854)
       /\ (has_lastTimeDetected scenario_sheet = false
           -> lastTimeDetected r = None))
    scenario.
Proof.
  apply (load_data_timestamps_in_range no_text_ms wide_ms_sample
           scenario_sheet scenario).
  reflexivity.
Defined.

Lemma load_data_keeps_other_columns_witness :
  List.map (fun r => (neName r, severity r, numberOfOccurrences r)) scenario
  = List.map (fun r => (raw_neName r, raw_severity r, raw_numberOfOccurrences r))
      (List.filter (valid_first no_text_ms wide_ms_sample)
         (sheet_rows scenario_sheet)).
Proof.
  apply (load_data_keeps_other_columns no_text_ms wide_ms_sample
           scenario_sheet scenario).
  reflexivity.
Defined.

Lemma pivot_table_sum_is_grand_total_witness :
  matrix_sum {| pivot_index := ["2024-01"; "2024-02"];
                pivot_columns := ["A"; "B"];
                pivot_values := [[Some 105; Some 0]; [Some 0; Some 5]] |}
  = total_occurrences (List.filter (fun r => has_site r && has_time r) scenario)
  /\ (forallb has_time scenario = true ->
      matrix_sum {| pivot_index := ["2024-01"; "2024-02"];
                    pivot_columns := ["A"; "B"];
                    pivot_values := [[Some 105; Some 0]; [Some 0; Some 5]] |}
      = sum_values (site_criticals stable_rank scenario)).
Proof.
  apply (pivot_table_sum_is_grand_total stable_rank scenario
           {| pivot_index := ["2024-01"; "2024-02"];
              pivot_columns := ["A"; "B"];
              pivot_values := [[Some 105; Some 0]; [Some 0; Some 5]] |}).
  - reflexivity.
  - repeat constructor; simpl; lia.
  - vm_compute. reflexivity.
Defined.

Lemma session_reads_file_once_witness :
  (forall t,
      load no_text_ms wide_ms_sample (file_now first_visit) = inr t ->
      session no_text_ms wide_ms_sample stable_rank exact_mean2
        [first_visit; later_visit] None
      = List.map
          (fun tr => script stable_rank exact_mean2 t (selection_now tr))
          [first_visit; later_visit])
  /\ (forall e,
        load no_text_ms wide_ms_sample (file_now first_visit) = inl e ->
        session no_text_ms wide_ms_sample stable_rank exact_mean2
          [first_visit; later_visit] None
        = Some (failed e)
          :: session no_text_ms wide_ms_sample stable_rank exact_mean2
               [later_visit] None).
Proof.
  apply (session_reads_file_once no_text_ms wide_ms_sample stable_rank
           exact_mean2 first_visit [later_visit]).
  reflexivity.
Defined.

Lemma reload_shows_on_next_run_witness :
  (forall t,
      load no_text_ms wide_ms_sample (file_now first_visit) = inr t ->
      session no_text_ms wide_ms_sample stable_rank exact_mean2
        [reload_click; first_visit; later_visit]
        (Some {| loaded_rows := scenario; loaded_str := true |})
      = script stable_rank exact_mean2
          {| loaded_rows := scenario; loaded_str := true |}
          (selection_now reload_click)
        :: List.map
             (fun tr => script stable_rank exact_mean2 t (selection_now tr))
             [first_visit; later_visit])
  /\ (forall e,
        load no_text_ms wide_ms_sample (file_now first_visit) = inl e ->
        session no_text_ms wide_ms_sample stable_rank exact_mean2
          [reload_click; first_visit; later_visit]
          (Some {| loaded_rows := scenario; loaded_str := true |})
        = script stable_rank exact_mean2
            {| loaded_rows := scenario; loaded_str := true |}
            (selection_now reload_click)
          :: Some (failed e)
          :: session no_text_ms wide_ms_sample stable_rank exact_mean2
               [later_visit] None).
Proof.
  apply (reload_shows_on_next_run no_text_ms wide_ms_sample stable_rank
           exact_mean2 reload_click first_visit [later_visit]
           {| loaded_rows := scenario; loaded_str := true |});
    reflexivity.
Defined.

